(** * signalrcore: the hub connection engine

    A shallow embedding of [signalrcore/hub/base_hub_connection.py]
    ([StreamHandler], [BaseHubConnection]) and of the public [send] of
    [signalrcore/hub_connection_builder.py].

    Python objects that are shared and mutated in place (the [StreamHandler]
    returned by [stream] is the very object kept in [stream_handlers]) live
    in an object store; the hub keeps references into it.  Exceptions are an
    explicit result; everything the engine does to its collaborators (the
    transport, the loggers, the keep-alive checker, user callbacks) is
    recorded in a trace of effects.  What the outside world answers (the
    outcome of a transport write, the clock, a generated uuid) is an
    argument of the operation that asks for it. *)

From Stdlib Require Import ZArith String Ascii List Bool Lia.
From stdpp Require Import base option list gmap strings.

Set Warnings "-register-all".
Local Open Scope string_scope.
Local Open Scope list_scope.
Local Open Scope Z_scope.

(** ** Values, messages, exceptions *)

(** The Python values the engine handles without looking inside, apart
    from [type(x) is list], [x is None] and calling [x].  [PyFun f] is a
    callable, named by [f]. *)
Inductive pyval : Type :=
| PyNone
| PyBool (b : bool)
| PyInt (z : Z)
| PyStr (s : string)
| PyList (xs : list pyval)
| PyFun (f : nat).

(** Modelled from the spec: the message classes of [signalrcore.messages]
    (section 3, "Message"), with the attributes the dispatcher reads
    ([type], [target], [arguments], [invocation_id], [item]) and the
    constructor arguments [stream] and the builder's [send] pass
    (headers, invocation id, target, arguments). *)
Inductive Message : Type :=
| HandshakeRequestMessage
| InvocationMessage (headers : list (string * string))
    (invocation_id target : string) (arguments : pyval)
| StreamInvocationMessage (headers : list (string * string))
    (invocation_id target : string) (arguments : pyval)
| StreamItemMessage (invocation_id : string) (item : pyval)
| CompletionMessage (invocation_id : string) (result : pyval)
    (error : option string)
| PingMessage
| CloseMessage (error : option string)
| CancelInvocationMessage (invocation_id : string)
| InvocationBindingFailureMessage (invocation_id : string).

(** [MessageType], the tag [on_message] branches on. *)
Inductive MessageType : Type :=
| invocation | stream_item | completion | stream_invocation
| cancel_invocation | ping | close | invocation_binding_failure
| handshake_request.

#[global] Instance MessageType_eq_dec : EqDecision MessageType.
Proof. solve_decision. Defined.


(** What the protocol's handshake decoder returns. *)
Record HandshakeResponseMessage : Type := { error : option string }.

(** The protocol collaborator ([self.protocol]); wire frames are text. *)
Record Protocol : Type := {
  handshake_message : Message;
  decode_handshake : string -> HandshakeResponseMessage;
  parse_messages : string -> list Message;
  encode : Message -> string
}.

(** The exceptions the engine raises or is handed, each with the argument
    it was built with; [OtherException] is a plain [Exception]. *)
Inductive exn : Type :=
| ValueError (msg : string)
| HubConnectionError (msg : string)
| KeyError (key : string)
| TypeError (msg : string)
| AttributeError (msg : string)
| NameError (name : string)
| WebSocketConnectionClosedException (msg : string)
| ConnectionResetError (msg : string)
| OtherException (msg : string).

(** The exceptions the first [except] clause of [send] catches. *)
Definition is_connection_closed (ex : exn) : bool :=
  match ex with
  | WebSocketConnectionClosedException _ | ConnectionResetError _ => true
  | _ => false
  end.

(** The hexadecimal digit of [n], below 16. *)
Definition hex_digit (n : nat) : ascii :=
  nth n (list_ascii_of_string "0123456789abcdef") "0"%char.

(** One character of [repr(s)] inside the quotes [quote]: the quote and
    the backslash are escaped, tab, newline and return are written as
    letters, and the characters Python does not print (the controls below
    32, 127 to 160, and the soft hyphen 173) as their code in
    hexadecimal. *)
Definition repr_char (quote c : ascii) : string :=
  let n := nat_of_ascii c in
  let backslash := ascii_of_nat 92 in
  if (n =? 92)%nat || Ascii.eqb c quote then String backslash (String c "")
  else if (n =? 9)%nat then String backslash "t"
  else if (n =? 10)%nat then String backslash "n"
  else if (n =? 13)%nat then String backslash "r"
  else if (n <? 32)%nat || ((127 <=? n)%nat && (n <=? 160)%nat) || (n =? 173)%nat
  then String backslash
         (String "x" (String (hex_digit (n / 16)) (String (hex_digit (n mod 16)) "")))
  else String c "".

Fixpoint repr_chars (quote : ascii) (s : string) : string :=
  match s with
  | String c s' => repr_char quote c +:+ repr_chars quote s'
  | EmptyString => EmptyString
  end.

Fixpoint contains (c : ascii) (s : string) : bool :=
  match s with
  | String c' s' => Ascii.eqb c c' || contains c s'
  | EmptyString => false
  end.

(** [repr(s)] for a string of code points below 256: in single quotes,
    or in double quotes when [s] holds a single quote and no double one. *)
Definition repr (s : string) : string :=
  let single := ascii_of_nat 39 in
  let double := ascii_of_nat 34 in
  let quote := if contains single s && negb (contains double s)
               then double else single in
  String quote (repr_chars quote s +:+ String quote "").

(** [str(ex)] *)
Definition exn_text (ex : exn) : string :=
  match ex with
  | ValueError s | HubConnectionError s | TypeError s
  | AttributeError s | WebSocketConnectionClosedException s
  | ConnectionResetError s | OtherException s => s
  | KeyError k => repr k
  | NameError n => "name '" +:+ n +:+ "' is not defined"
  end.

(** [type(ex)], as [format] prints it. *)
Definition exn_type (ex : exn) : string :=
  match ex with
  | ValueError _ => "<class 'ValueError'>"
  | HubConnectionError _ =>
      "<class 'signalrcore.hub_connection_builder.HubConnectionError'>"
  | KeyError _ => "<class 'KeyError'>"
  | TypeError _ => "<class 'TypeError'>"
  | AttributeError _ => "<class 'AttributeError'>"
  | NameError _ => "<class 'NameError'>"
  | WebSocketConnectionClosedException _ =>
      "<class 'websocket._exceptions.WebSocketConnectionClosedException'>"
  | ConnectionResetError _ => "<class 'ConnectionResetError'>"
  | OtherException _ => "<class 'Exception'>"
  end.

(** ** Effects on the collaborators *)

Inductive log_level : Type := ERROR | WARNING | INFO.

(** The argument a callback receives: a value ([message.arguments],
    [message.item]) or the message object itself. *)
Inductive call_arg : Type :=
| ArgValue (v : pyval)
| ArgMessage (m : Message).

(** What the engine can do to a collaborator: a log line, a call of a
    callback, a frame written to the socket [_ws], that socket opened or
    closed, the checker's timer started or stopped. *)
Inductive effect : Type :=
| Log (level : log_level) (text : string)
| LogMessage (level : log_level) (m : Message)
| Invoke (f : nat) (arg : call_arg)
| TransportSend (frame : string)
| TransportOpen (url : string) (header : list (string * string))
| TransportClose
| CheckerStart
| CheckerStop.

(** ** The objects *)

Record StreamHandler : Type := {
  event : string;
  invocation_id : string;
  next_callback : pyval;
  complete_callback : pyval;
  error_callback : pyval
}.

(** [StreamHandler.__init__] *)
Definition StreamHandler_init (ev id : string) : StreamHandler :=
  {| event := ev; invocation_id := id; next_callback := PyNone;
     complete_callback := PyNone; error_callback := PyNone |}.

(** Modelled from the spec: [ConnectionStateChecker] of
    [signalrcore/hub/reconnection.py] (section 4.2 and "Liveness state"),
    with the two attributes the hub writes and whether its timer runs. *)
Record ConnectionStateChecker : Type := {
  keep_alive_interval : Z;
  last_message : Z;
  running : bool
}.

(** Modelled from the spec: a reconnection handler object of
    [signalrcore/hub/reconnection.py] (section 4.3): the class it was
    built from, the two constructor arguments [configure_reconnection]
    passes, and the [reconnecting] flag the hub reads and writes. *)
Record ReconnectionHandler : Type := {
  class_name : string;
  sleep_time : Z;
  max_attemps : option Z;
  reconnecting : bool
}.

Record WebSocketApp : Type := {
  ws_url : string;
  ws_header : list (string * string)
}.

(** A reference to a [StreamHandler] object in the store. *)
Abbreviation ref := nat.

Record BaseHubConnection : Type := {
  url : string;
  headers : list (string * string);
  handshake_received : bool;
  connection_alive : bool;
  handlers : list (string * nat);
  stream_handlers : list ref;
  _ws : option WebSocketApp;
  connection_checker : ConnectionStateChecker;
  reconnection_handler : option ReconnectionHandler
}.

(** [BaseHubConnection.__init__]; [now] is the clock the checker starts from. *)
Definition BaseHubConnection_init (u : string) (now : Z) : BaseHubConnection :=
  {| url := u; headers := [];
     handshake_received := false; connection_alive := false;
     handlers := []; stream_handlers := [];
     _ws := None;
     connection_checker :=
       {| keep_alive_interval := 15; last_message := now; running := false |};
     reconnection_handler := None |}.

(** The hub object, the store of [StreamHandler] objects, and the effects
    performed so far (oldest first). *)
Record World : Type := {
  hub : BaseHubConnection;
  heap : list StreamHandler;
  trace : list effect
}.

(** Field updates ([self.x = v]). *)
Definition set_handshake_received (b : bool) (h : BaseHubConnection) :=
  {| url := url h; headers := headers h;
     handshake_received := b; connection_alive := connection_alive h;
     handlers := handlers h; stream_handlers := stream_handlers h;
     _ws := _ws h; connection_checker := connection_checker h;
     reconnection_handler := reconnection_handler h |}.

Definition set_connection_alive (b : bool) (h : BaseHubConnection) :=
  {| url := url h; headers := headers h;
     handshake_received := handshake_received h; connection_alive := b;
     handlers := handlers h; stream_handlers := stream_handlers h;
     _ws := _ws h; connection_checker := connection_checker h;
     reconnection_handler := reconnection_handler h |}.

Definition set_handlers (l : list (string * nat)) (h : BaseHubConnection) :=
  {| url := url h; headers := headers h;
     handshake_received := handshake_received h;
     connection_alive := connection_alive h;
     handlers := l; stream_handlers := stream_handlers h;
     _ws := _ws h; connection_checker := connection_checker h;
     reconnection_handler := reconnection_handler h |}.

Definition set_stream_handlers (l : list ref) (h : BaseHubConnection) :=
  {| url := url h; headers := headers h;
     handshake_received := handshake_received h;
     connection_alive := connection_alive h;
     handlers := handlers h; stream_handlers := l;
     _ws := _ws h; connection_checker := connection_checker h;
     reconnection_handler := reconnection_handler h |}.

Definition set_ws (w : option WebSocketApp) (h : BaseHubConnection) :=
  {| url := url h; headers := headers h;
     handshake_received := handshake_received h;
     connection_alive := connection_alive h;
     handlers := handlers h; stream_handlers := stream_handlers h;
     _ws := w; connection_checker := connection_checker h;
     reconnection_handler := reconnection_handler h |}.

Definition set_connection_checker (c : ConnectionStateChecker)
    (h : BaseHubConnection) :=
  {| url := url h; headers := headers h;
     handshake_received := handshake_received h;
     connection_alive := connection_alive h;
     handlers := handlers h; stream_handlers := stream_handlers h;
     _ws := _ws h; connection_checker := c;
     reconnection_handler := reconnection_handler h |}.

Definition set_reconnection_handler (r : option ReconnectionHandler)
    (h : BaseHubConnection) :=
  {| url := url h; headers := headers h;
     handshake_received := handshake_received h;
     connection_alive := connection_alive h;
     handlers := handlers h; stream_handlers := stream_handlers h;
     _ws := _ws h; connection_checker := connection_checker h;
     reconnection_handler := r |}.

Definition set_last_message (t : Z) (c : ConnectionStateChecker) :=
  {| keep_alive_interval := keep_alive_interval c; last_message := t;
     running := running c |}.

Definition set_keep_alive_interval (k : Z) (c : ConnectionStateChecker) :=
  {| keep_alive_interval := k; last_message := last_message c;
     running := running c |}.

Definition set_running (b : bool) (c : ConnectionStateChecker) :=
  {| keep_alive_interval := keep_alive_interval c;
     last_message := last_message c; running := b |}.

Definition set_reconnecting (b : bool) (r : ReconnectionHandler) :=
  {| class_name := class_name r; sleep_time := sleep_time r;
     max_attemps := max_attemps r; reconnecting := b |}.

(** ** Computations: state, trace and exceptions *)

Inductive result (A : Type) : Type :=
| Ok (a : A)
| Raise (ex : exn).
Arguments Ok {A} a.
Arguments Raise {A} ex.

(** A method body: from the world before to its outcome and the world
    after.  A raised exception keeps every write made before it. *)
Definition M (A : Type) : Type := World -> result A * World.

Definition ret {A} (a : A) : M A := fun w => (Ok a, w).

Definition bind {A B} (m : M A) (k : A -> M B) : M B :=
  fun w => match m w with
           | (Ok a, w') => k a w'
           | (Raise ex, w') => (Raise ex, w')
           end.

Definition raise {A} (ex : exn) : M A := fun w => (Raise ex, w).

Notation "x <- m ;; k" := (bind m (fun x => k))
  (at level 100, m at next level, right associativity).
Notation "m ;;; k" := (bind m (fun _ => k))
  (at level 100, right associativity).

Definition self : M BaseHubConnection := fun w => (Ok (hub w), w).

Definition with_hub (f : BaseHubConnection -> BaseHubConnection) (w : World) :=
  {| hub := f (hub w); heap := heap w; trace := trace w |}.

Definition add_trace (es : list effect) (w : World) :=
  {| hub := hub w; heap := heap w; trace := trace w ++ es |}.

(** A write to an attribute of the hub. *)
Definition update (f : BaseHubConnection -> BaseHubConnection) : M unit :=
  fun w => (Ok tt, with_hub f w).

(** An effect on a collaborator. *)
Definition emit (e : effect) : M unit :=
  fun w => (Ok tt, add_trace [e] w).

(** [for x in xs: body(x)] *)
Fixpoint for_each {A} (xs : list A) (body : A -> M unit) : M unit :=
  match xs with
  | [] => ret tt
  | x :: xs' => body x ;;; for_each xs' body
  end.

(** ** The object store *)

(** The object a reference points to.  Every reference the hub holds was
    returned by [alloc], so the default is never read. *)
Definition deref (w : World) (r : ref) : StreamHandler :=
  nth r (heap w) (StreamHandler_init "" "").

(** A new object; its reference is the next free index. *)
Definition alloc (o : StreamHandler) : M ref :=
  fun w => (Ok (length (heap w)),
            {| hub := hub w; heap := heap w ++ [o]; trace := trace w |}).

(** The world after an attribute write on the object behind [r]. *)
Definition store_world (r : nat) (f : StreamHandler -> StreamHandler)
    (w : World) : World :=
  {| hub := hub w; heap := alter f r (heap w); trace := trace w |}.

(** An attribute write on the object behind [r]. *)
Definition store (r : ref) (f : StreamHandler -> StreamHandler) : M unit :=
  fun w => (Ok tt, store_world r f w).

(** [type(v).__name__] *)
Definition type_name (v : pyval) : string :=
  match v with
  | PyNone => "NoneType"
  | PyBool _ => "bool"
  | PyInt _ => "int"
  | PyStr _ => "str"
  | PyList _ => "list"
  | PyFun _ => "function"
  end.

(** What calling [v] raises when [v] is not callable. *)
Definition not_callable (v : pyval) : exn :=
  TypeError ("'" +:+ type_name v +:+ "' object is not callable").

(** Calling a value: a callable is invoked, anything else is not callable. *)
Definition call (v : pyval) (arg : call_arg) : M unit :=
  match v with
  | PyFun f => emit (Invoke f arg)
  | _ => raise (not_callable v)
  end.

(** Reading an attribute of the object behind [r]. *)
Definition attr {A} (r : ref) (f : StreamHandler -> A) : M A :=
  fun w => (Ok (f (deref w r)), w).

(** [try: body except Exception as ex: handler(ex)] *)
Definition try_except {A} (body : M A) (handler : exn -> M A) : M A :=
  fun w => match body w with
           | (Ok a, w') => (Ok a, w')
           | (Raise ex, w') => handler ex w'
           end.

(** ** StreamHandler.subscribe *)

Definition set_next_callback (v : pyval) (o : StreamHandler) :=
  {| event := event o; invocation_id := invocation_id o;
     next_callback := v; complete_callback := complete_callback o;
     error_callback := error_callback o |}.

Definition set_complete_callback (v : pyval) (o : StreamHandler) :=
  {| event := event o; invocation_id := invocation_id o;
     next_callback := next_callback o; complete_callback := v;
     error_callback := error_callback o |}.

Definition set_error_callback (v : pyval) (o : StreamHandler) :=
  {| event := event o; invocation_id := invocation_id o;
     next_callback := next_callback o;
     complete_callback := complete_callback o; error_callback := v |}.

(** [d[k]] on a dict *)
Definition getitem (d : gmap string pyval) (k : string) : M pyval :=
  match d !! k with
  | Some v => ret v
  | None => raise (KeyError k)
  end.

(** The error of [subscribe]: the text, with the dict it formats. *)
Definition subscribe_error : exn :=
  ValueError
    " subscribe object must be {'next': None, 'complete': None, 'error': None}".

(** [subscribe_callbacks] is [None] or a dict. *)
Definition subscribe (r : ref) (subscribe_callbacks : option (gmap string pyval))
    : M unit :=
  match subscribe_callbacks with
  | None => raise subscribe_error
  | Some d =>
      n <- getitem d "next" ;;
      store r (set_next_callback n) ;;;
      c <- getitem d "complete" ;;
      store r (set_complete_callback c) ;;;
      e <- getitem d "error" ;;
      store r (set_error_callback e)
  end.

(** ** BaseHubConnection *)

(** Modelled from the spec: the enum [ReconnectionType] of
    [signalrcore/hub/reconnection.py], with the two members
    [configure_reconnection] compares against (section 4.3: Fixed, here
    [raw], and Exponential). *)
Inductive ReconnectionType : Type := raw | exponential.

(** [ReconnectionType[name]] *)
Definition ReconnectionType_getitem (name : string) : M ReconnectionType :=
  if bool_decide (name = "raw") then ret raw
  else if bool_decide (name = "exponential") then ret exponential
  else raise (KeyError name).

Definition ReconnectionType_eqb (a b : ReconnectionType) : bool :=
  match a, b with
  | raw, raw | exponential, exponential => true
  | _, _ => false
  end.

(** The names bound at the top level of [base_hub_connection.py]: its
    imports and its two classes. *)
Definition module_globals : list string :=
  [ "logging"; "websocket"; "threading"; "uuid"; "time";
    "MessageType"; "StreamInvocationMessage"; "PingMessage";
    "ConnectionStateChecker"; "ExponentialReconnectionHandler";
    "RawReconnectionHandler"; "ReconnectionType";
    "StreamHandler"; "BaseHubConnection" ].

(** [cls(sleep_time=.., max_attemps=..)] for a handler class looked up by
    name in the namespace [ns]: an unbound name raises [NameError]. *)
Definition instantiate (ns : list string) (cls : string)
    (sleep : Z) (attemps : option Z) : M ReconnectionHandler :=
  if bool_decide (cls ∈ ns)
  then ret {| class_name := cls; sleep_time := sleep;
              max_attemps := attemps; reconnecting := false |}
  else raise (NameError cls).

Definition configure_reconnection_in (ns : list string)
    (reconnection_type : string)
    (keep_alive reconnect_interval : Z) (attemps : option Z) : M unit :=
  update (fun h => set_connection_checker
            (set_keep_alive_interval keep_alive (connection_checker h)) h) ;;;
  reconn_type <- ReconnectionType_getitem reconnection_type ;;
  (if ReconnectionType_eqb reconn_type raw then
     r <- instantiate ns "ReconnectionHandler" reconnect_interval attemps ;;
     update (set_reconnection_handler (Some r))
   else ret tt) ;;;
  (if ReconnectionType_eqb reconn_type exponential then
     r <- instantiate ns "ReconnectionHandler" reconnect_interval attemps ;;
     update (set_reconnection_handler (Some r))
   else ret tt).

Definition configure_reconnection := configure_reconnection_in module_globals.

Definition register_handler (ev : string) (callback : nat) : M unit :=
  update (fun h => set_handlers (handlers h ++ [(ev, callback)]) h).

(** The thread that runs the socket shows as the [TransportOpen] effect. *)
Definition start : M unit :=
  h <- self ;;
  update (set_ws (Some {| ws_url := url h; ws_header := headers h |})) ;;;
  emit (TransportOpen (url h) (headers h)) ;;;
  update (fun h => set_connection_checker
            (set_running true (connection_checker h)) h) ;;;
  emit CheckerStart.

(** [self.close()] on the hub object: the method the hub inherits from
    [websocket.WebSocketApp].  It sets [keep_running], which nothing in
    the class reads, and then tests [self.sock].  That attribute is
    assigned by [WebSocketApp.__init__] alone; [BaseHubConnection.__init__]
    does not call it and no method of the class assigns [sock], so the
    read fails.  The socket [start] opens is another object, [self._ws]. *)
Definition WebSocketApp_close : M unit :=
  raise (AttributeError "'BaseHubConnection' object has no attribute 'sock'").

Definition stop : M unit :=
  h <- self ;;
  (if connection_alive h then WebSocketApp_close else ret tt) ;;;
  update (fun h => set_connection_checker
            (set_running false (connection_checker h)) h) ;;;
  emit CheckerStop.

Definition on_close : M unit := emit (Log INFO "-- web socket close --").

Definition on_error (err : exn) : M unit :=
  emit (Log ERROR "-- web socket error --") ;;;
  emit (Log ERROR (exn_text err +:+ " " +:+ exn_type err)).

(** The handshake response carries no error. *)
Definition accepted (msg : HandshakeResponseMessage) : Prop :=
  error msg = None \/ error msg = Some "".

(** What [None.reconnecting = False] raises. *)
Definition none_attribute_error : exn :=
  AttributeError "'NoneType' object has no attribute 'reconnecting'".

(** [self.connection_checker.last_message = now] *)
Definition touch (now : Z) (h : BaseHubConnection) : BaseHubConnection :=
  set_connection_checker (set_last_message now (connection_checker h)) h.

(** What [send] logs when the transport is closed. *)
Definition closed_effect (ex : exn) : effect :=
  Log ERROR ("Connection closed " +:+ exn_text ex).

Section Engine.

Variable protocol : Protocol.

Definition evaluate_handshake (message : string) : M unit :=
  let msg := decode_handshake protocol message in
  if bool_decide (error msg = None) || bool_decide (error msg = Some "") then
    update (set_handshake_received true) ;;;
    update (set_connection_alive true) ;;;
    h <- self ;;
    match reconnection_handler h with
    | Some r =>
        update (set_reconnection_handler (Some (set_reconnecting false r)))
    | None => raise none_attribute_error
    end
  else
    let err := default "" (error msg) in
    emit (Log ERROR err) ;;;
    raise (ValueError ("Handshake error " +:+ err)).

(** The write [self._ws.send(self.protocol.encode(message))].  [io] is
    what the transport does with the frame: [None] when it takes it, the
    exception it raises otherwise. *)
Definition ws_send (message : Message) (io : option exn) : M unit :=
  h <- self ;;
  match _ws h with
  | None => raise (AttributeError "'NoneType' object has no attribute 'send'")
  | Some _ =>
      match io with
      | None => emit (TransportSend (encode protocol message))
      | Some ex => raise ex
      end
  end.

(** [now] is the value of [time.time()]. *)
Definition send (message : Message) (now : Z) (io : option exn) : M unit :=
  try_except
    (ws_send message io ;;; update (touch now))
    (fun ex =>
       if is_connection_closed ex then
         h <- self ;;
         match reconnection_handler h with
         | None => raise ex
         | Some r =>
             emit (closed_effect ex) ;;;
             update (set_connection_alive false) ;;;
             if negb (reconnecting r) then
               update (set_reconnection_handler
                         (Some (set_reconnecting true r))) ;;;
               stop ;;;
               start
             else ret tt
         end
       else raise ex).

Definition on_open (now : Z) (io : option exn) : M unit :=
  emit (Log INFO "-- web socket open --") ;;;
  send (handshake_message protocol) now io.

(** [uid] is the value of [str(uuid.uuid4())]. *)
Definition stream (ev : string) (event_params : pyval) (uid : string)
    (now : Z) (io : option exn) : M ref :=
  stream_obj <- alloc (StreamHandler_init ev uid) ;;
  update (fun h => set_stream_handlers (stream_handlers h ++ [stream_obj]) h) ;;;
  send (StreamInvocationMessage [] uid ev event_params) now io ;;;
  ret stream_obj.

(** How one turn of the [for] loop of [on_message] ends: with the next
    message ([continue], or the end of the body) or with [return]. *)
Inductive flow : Type := Next | Return.

(** [list(filter(lambda h: h[0] == target, self.handlers))] *)
Definition fired_handlers (target : string) (hs : list (string * nat))
    : list (string * nat) :=
  filter (fun h => fst h = target) hs.

(** [list(filter(lambda h: h.invocation_id == id, self.stream_handlers))] *)
Definition fired_stream_handlers (id : string) : M (list ref) :=
  fun w => (Ok (filter (fun r => invocation_id (deref w r) = id)
                       (stream_handlers (hub w))), w).

(** [self.stream_handlers = list(filter(lambda h: h.invocation_id != id,
    self.stream_handlers))] *)
Definition unregister (id : string) : M unit :=
  fun w => update (set_stream_handlers
                     (filter (fun r => invocation_id (deref w r) <> id)
                             (stream_handlers (hub w)))) w.

Definition warn_unhandled_event (target : string) : effect :=
  Log WARNING ("event '" +:+ target +:+ "' hasn't fire any handler").

Definition warn_unhandled_stream (id : string) : effect :=
  Log WARNING ("id '" +:+ id +:+ "' hasn't fire any stream handler").

(** What the [Close] branch logs. *)
Definition close_effect : effect :=
  Log INFO "Close message received from server".

(** The body of the loop of [on_message], for one message.  The source
    is a sequence of [if message.type == ...] tests; a message has one
    type, so at most one of them holds. *)
Definition dispatch_message (message : Message) : M flow :=
  match message with
  | InvocationBindingFailureMessage _ =>
      emit (LogMessage ERROR message) ;;; ret Next
  | PingMessage => ret Next
  | InvocationMessage _ _ target arguments =>
      h <- self ;;
      let fired := fired_handlers target (handlers h) in
      (if bool_decide (length fired = 0%nat)
       then emit (warn_unhandled_event target) else ret tt) ;;;
      for_each fired (fun h => emit (Invoke (snd h) (ArgValue arguments))) ;;;
      ret Next
  | CloseMessage _ =>
      emit close_effect ;;;
      update (set_connection_alive false) ;;;
      ret Return
  | CompletionMessage id _ _ =>
      fired <- fired_stream_handlers id ;;
      for_each fired (fun r =>
        cb <- attr r complete_callback ;; call cb (ArgMessage message)) ;;;
      unregister id ;;;
      ret Next
  | StreamItemMessage id item =>
      fired <- fired_stream_handlers id ;;
      (if bool_decide (length fired = 0%nat)
       then emit (warn_unhandled_stream id) else ret tt) ;;;
      for_each fired (fun r =>
        cb <- attr r next_callback ;; call cb (ArgValue item)) ;;;
      ret Next
  | StreamInvocationMessage _ _ _ _ => ret Next
  | CancelInvocationMessage id =>
      fired <- fired_stream_handlers id ;;
      (if bool_decide (length fired = 0%nat)
       then emit (warn_unhandled_stream id) else ret tt) ;;;
      for_each fired (fun r =>
        cb <- attr r error_callback ;; call cb (ArgMessage message)) ;;;
      unregister id ;;;
      ret Next
  | HandshakeRequestMessage => ret Next
  end.

(** [for message in messages: ...] *)
Fixpoint dispatch (messages : list Message) : M unit :=
  match messages with
  | [] => ret tt
  | message :: rest =>
      f <- dispatch_message message ;;
      match f with
      | Next => dispatch rest
      | Return => ret tt
      end
  end.

Definition on_message (raw_message : string) (now : Z) : M unit :=
  update (touch now) ;;;
  h <- self ;;
  if negb (handshake_received h) then evaluate_handshake raw_message
  else dispatch (parse_messages protocol raw_message).

End Engine.

(** ** HubConnectionBuilder *)

(** What [self._hub.name] raises while [_hub] is [None]. *)
Definition unbuilt_error (name : string) : exn :=
  AttributeError ("'NoneType' object has no attribute '" +:+ name +:+ "'").

Module Builder.

(** The builder, with the hub it owns once [build] has run; the store
    and the trace are those of the hub's world. *)
Record HubConnectionBuilder : Type := {
  hub_url : option string;
  _hub : option BaseHubConnection;
  store : list StreamHandler;
  effects : list effect
}.

(** A call [self._hub.name(...)], [m] being the method [name] of the hub. *)
Definition on_hub {A} (name : string) (m : M A) (b : HubConnectionBuilder)
    : result A * HubConnectionBuilder :=
  match _hub b with
  | None => (Raise (unbuilt_error name), b)
  | Some h =>
      let '(r, w) := m {| hub := h; heap := store b; trace := effects b |} in
      (r, {| hub_url := hub_url b; _hub := Some (hub w);
             store := heap w; effects := trace w |})
  end.

Definition on (ev : string) (callback_function : nat) :=
  on_hub "register_handler" (register_handler ev callback_function).

Definition stream (protocol : Protocol) (ev : string) (event_params : pyval)
    (uid : string) (now : Z) (io : option exn) :=
  on_hub "stream" (stream protocol ev event_params uid now io).

(** [type(arguments) is list] *)
Definition is_list (v : pyval) : bool :=
  match v with
  | PyList _ => true
  | _ => false
  end.

(** [uid] is the value of [str(uuid.uuid4())]. *)
Definition send (protocol : Protocol) (method : string) (arguments : pyval)
    (uid : string) (now : Z) (io : option exn) (b : HubConnectionBuilder)
    : result unit * HubConnectionBuilder :=
  if negb (is_list arguments) then
    (Raise (HubConnectionError "Arguments of a message must be a list"), b)
  else
    on_hub "send"
      (send protocol (InvocationMessage [] uid method arguments) now io) b.

End Builder.

(** The effects of the reconnection sequence of [send]: [stop] on a hub
    that is no longer alive, then [start]. *)
Definition reconnection_effects (h : BaseHubConnection) : list effect :=
  [CheckerStop; TransportOpen (url h) (headers h); CheckerStart].

(** ** Runs of the engine *)

(** What the application and the transport may do to a hub, each with
    the answers of the outside world it needs. *)
Inductive op : Type :=
| OnOpen (now : Z) (io : option exn)
| OnMessage (raw_message : string) (now : Z)
| OnClose
| OnError (err : exn)
| Send (message : Message) (now : Z) (io : option exn)
| Stream (ev : string) (event_params : pyval) (uid : string)
    (now : Z) (io : option exn)
| Subscribe (r : ref) (subscribe_callbacks : option (gmap string pyval))
| RegisterHandler (ev : string) (callback : nat)
| ConfigureReconnection (reconnection_type : string)
    (keep_alive reconnect_interval : Z) (attemps : option Z)
| Start
| Stop.

(** The world after [o], whether or not it raised. *)
Definition exec (protocol : Protocol) (o : op) (w : World) : World :=
  match o with
  | OnOpen now io => snd (on_open protocol now io w)
  | OnMessage raw_message now => snd (on_message protocol raw_message now w)
  | OnClose => snd (on_close w)
  | OnError err => snd (on_error err w)
  | Send message now io => snd (send protocol message now io w)
  | Stream ev params uid now io => snd (stream protocol ev params uid now io w)
  | Subscribe r cbs => snd (subscribe r cbs w)
  | RegisterHandler ev cb => snd (register_handler ev cb w)
  | ConfigureReconnection t k i a => snd (configure_reconnection t k i a w)
  | Start => snd (start w)
  | Stop => snd (stop w)
  end.

Definition run (protocol : Protocol) (ops : list op) (w : World) : World :=
  fold_left (fun w o => exec protocol o w) ops w.

(** ** [send] on several threads *)












(** A [send] whose write fails with [snd x]. *)
Definition failing_send (x : Message * Z * exn) : op :=
  Send (fst (fst x)) (snd (fst x)) (Some (snd x)).

(** [o] is not a [stream] call that draws the invocation id [uid]. *)
Definition draws_other_id (uid : string) (o : op) : Prop :=
  match o with
  | Stream _ _ uid' _ _ => uid' <> uid
  | _ => True
  end.

(** The tracked handlers that carry the invocation id [id]. *)
Definition tracked (id : string) (w : World) : list ref :=
  filter (fun r => invocation_id (deref w r) = id) (stream_handlers (hub w)).

(** Every reference in the tracker points into the store. *)
Definition tracker_wf (w : World) : Prop :=
  Forall (fun r => (r < length (heap w))%nat) (stream_handlers (hub w)).

(** A world in which nothing has happened yet. *)
Definition new_world (u : string) (now : Z) : World :=
  {| hub := BaseHubConnection_init u now; heap := []; trace := [] |}.

(** A protocol to run examples with: every frame decodes to [msgs], every
    handshake response carries [err]. *)
Definition fixed_protocol (err : option string) (msgs : list Message)
    : Protocol :=
  {| handshake_message := HandshakeRequestMessage;
     decode_handshake := fun _ => {| error := err |};
     parse_messages := fun _ => msgs;
     encode := fun _ => "frame" |}.

(** What a successful [subscribe] does to the object. *)
Definition subscribed (n c e : pyval) (o : StreamHandler) : StreamHandler :=
  set_error_callback e (set_complete_callback c (set_next_callback n o)).

(** ** Frames and invariants of the tracker *)

(** Every run of [m] relates the world before to the world after by [R]. *)
Definition frame (R : World -> World -> Prop) {A} (m : M A) : Prop :=
  forall w, R w (snd (m w)).

(** A relation that the trace and the hub attributes other than
    [stream_handlers] do not matter to. *)
Class Stable (R : World -> World -> Prop) : Prop := {
  stable_order :: PreOrder R;
  stable_trace : forall w es, R w (add_trace es w);
  stable_hub : forall w f,
    (forall h, stream_handlers (f h) = stream_handlers h) ->
    R w (with_hub f w)
}.

(** The store and the tracker are untouched. *)
Definition same_tracker (w w' : World) : Prop :=
  heap w' = heap w /\ stream_handlers (hub w') = stream_handlers (hub w).

(** No object was created, every object kept its invocation id, and the
    tracker lost handlers at most. *)
Definition steady (w w' : World) : Prop :=
  length (heap w') = length (heap w) /\
  (forall r, invocation_id (deref w' r) = invocation_id (deref w r)) /\
  stream_handlers (hub w') `sublist_of` stream_handlers (hub w).

(** No tracked handler carries the invocation id [uid]. *)
Definition absent (uid : string) (w : World) : Prop :=
  Forall (fun r => invocation_id (deref w r) <> uid) (stream_handlers (hub w)).

(** The world in the middle of [stream]: the new [StreamHandler] is
    in the store and appended to the tracker, nothing has been sent. *)
Definition track (ev uid : string) (w : World) : World :=
  {| hub := set_stream_handlers
              (stream_handlers (hub w) ++ [length (heap w)]) (hub w);
     heap := heap w ++ [StreamHandler_init ev uid];
     trace := trace w |}.

(** What every operation but a [stream] drawing [uid] again keeps. *)
Definition tracker_inv (uid : string) (w : World) : Prop :=
  tracker_wf w /\ absent uid w.

(** ** Frames of the hub and of the trace *)

(** Every run of [m] relates the hub before to the hub after by [R]. *)
Definition hub_frame (R : BaseHubConnection -> BaseHubConnection -> Prop)
    {A} (m : M A) : Prop :=
  forall w, R (hub w) (hub (snd (m w))).

(** Every run of [m] only adds effects that satisfy [P]. *)
Definition trace_frame (P : effect -> Prop) {A} (m : M A) : Prop :=
  forall w, exists es, trace (snd (m w)) = trace w ++ es /\ Forall P es.

(** The effects of the dispatch loop: log lines and calls of callbacks. *)
Definition passive (e : effect) : Prop :=
  match e with
  | Log _ _ | LogMessage _ _ | Invoke _ _ => True
  | _ => False
  end.

(** The effects of [send], [start] and [stop]: everything but calls of
    callbacks. *)
Definition no_call (e : effect) : Prop :=
  match e with
  | Invoke _ _ => False
  | _ => True
  end.

(** What the dispatch loop may do to the hub: drop tracked handlers and
    clear the alive flag. *)
Definition dispatch_changes (h h' : BaseHubConnection) : Prop :=
  exists l b,
    h' = set_connection_alive b (set_stream_handlers l h) /\
    l `sublist_of` stream_handlers h /\
    (b = true -> connection_alive h = true).

Definition keeps_handshake (h h' : BaseHubConnection) : Prop :=
  handshake_received h = true -> handshake_received h' = true.

Definition keeps_handlers (h h' : BaseHubConnection) : Prop :=
  handlers h `prefix_of` handlers h'.

Definition keeps_no_policy (h h' : BaseHubConnection) : Prop :=
  reconnection_handler h = None -> reconnection_handler h' = None.

Definition keeps_checker (h h' : BaseHubConnection) : Prop :=
  connection_checker h' = connection_checker h.

(** A value that can be called. *)
Definition callable (v : pyval) : Prop := exists f, v = PyFun f.

(** The [TypeError] of a call of a value that is not callable. *)
Definition call_error (ex : exn) : Prop :=
  exists v, ~ callable v /\ ex = not_callable v.

(** Every tracked handler holds three callables. *)
Definition all_subscribed (w : World) : Prop :=
  Forall (fun r => callable (next_callback (deref w r)) /\
                   callable (complete_callback (deref w r)) /\
                   callable (error_callback (deref w r)))
         (stream_handlers (hub w)).

Definition keeps_ws (h h' : BaseHubConnection) : Prop := _ws h' = _ws h.

(** Effects other than the close of a socket. *)
Definition keeps_open (e : effect) : Prop :=
  match e with
  | TransportClose => False
  | _ => True
  end.

(** Effects other than a frame written or a socket opened. *)
Definition no_write (e : effect) : Prop :=
  match e with
  | TransportSend _ | TransportOpen _ _ => False
  | _ => True
  end.

(** The invocation ids the [stream] calls of [ops] draw, in order. *)
Definition stream_ids (ops : list op) : list string :=
  omap (fun o => match o with
                 | Stream _ _ uid _ _ => Some uid
                 | _ => None
                 end) ops.

(** The invocation ids of the tracked handlers, in tracker order. *)
Definition tracked_ids (w : World) : list string :=
  (fun r => invocation_id (deref w r)) <$> stream_handlers (hub w).

(** A hub that has reconnected: past its handshake, not alive, with the
    reconnection handler [r]. *)
Definition reconnected (r : ReconnectionHandler) (h : BaseHubConnection) : Prop :=
  handshake_received h = true /\ connection_alive h = false /\
  reconnection_handler h = Some r.

Definition keeps_reconnected (r : ReconnectionHandler)
    (h h' : BaseHubConnection) : Prop :=
  reconnected r h -> reconnected r h'.

(** Every exception [m] raises satisfies [P]. *)
Definition raise_frame (P : exn -> Prop) {A} (m : M A) : Prop :=
  forall w ex, fst (m w) = Raise ex -> P ex.

(** The exceptions of [on_message]: a rejected handshake, the missing
    reconnection handler, a callback that cannot be called. *)
Definition on_message_error (ex : exn) : Prop :=
  match ex with
  | ValueError _ | AttributeError _ | TypeError _ => True
  | _ => False
  end.

(** ** Text: [str.strip()] *)

(** [c.isspace()], for a character below 256: the ASCII controls 9 to 13
    and 28 to 31, the space, NEL (133) and the no-break space (160).  A
    string is read as the sequence of its characters' code points. *)
Definition is_space (c : ascii) : bool :=
  let n := nat_of_ascii c in
  ((9 <=? n)%nat && (n <=? 13)%nat) || ((28 <=? n)%nat && (n <=? 32)%nat)
  || (n =? 133)%nat || (n =? 160)%nat.

Fixpoint lstrip (s : string) : string :=
  match s with
  | String c s' => if is_space c then lstrip s' else s
  | EmptyString => EmptyString
  end.

Fixpoint rstrip (s : string) : string :=
  match s with
  | String c s' =>
      match rstrip s' with
      | EmptyString => if is_space c then EmptyString else String c EmptyString
      | t => String c t
      end
  | EmptyString => EmptyString
  end.

(** [s.strip()] *)
Definition strip (s : string) : string := rstrip (lstrip s).

(** Every character of [s] is white space. *)
Fixpoint blank (s : string) : bool :=
  match s with
  | String c s' => is_space c && blank s'
  | EmptyString => true
  end.

(** ** HubConnectionBuilder: configuration *)

Module Setup.

(** An argument that may be a dict: a plain value ([Value PyNone] is
    [None]) or a dict from strings to values. *)
Inductive pyobj : Type :=
| Value (v : pyval)
| Dict (d : gmap string pyval).

Definition is_none (o : pyobj) : bool :=
  match o with
  | Value PyNone => true
  | _ => false
  end.

(** [type(o) != dict] *)
Definition not_dict (o : pyobj) : bool :=
  match o with
  | Dict _ => false
  | Value _ => true
  end.

(** ["access_token_factory" in o.keys()], for a dict *)
Definition has_factory (o : pyobj) : bool :=
  match o with
  | Dict d => bool_decide (is_Some (d !! "access_token_factory"))
  | Value _ => false
  end.

(** [callable(v)] *)
Definition is_callable (v : pyval) : bool :=
  match v with
  | PyFun _ => true
  | _ => false
  end.

(** [callable(o["access_token_factory"])], for a dict that has the key *)
Definition factory_callable (o : pyobj) : bool :=
  match o with
  | Dict d => from_option is_callable false (d !! "access_token_factory")
  | Value _ => false
  end.

(** The builder: the attributes that reach the hub ([hub_url], [_hub],
    in [core] with the hub's store and trace), and those [with_url]
    sets beside them.  [self.options] is always a dict: the one
    [__init__] builds, or one [with_url] has checked. *)
Record HubConnectionBuilder : Type := {
  core : Builder.HubConnectionBuilder;
  options : gmap string pyval;
  has_auth_configured : option bool
}.

(** [HubConnectionBuilder.__init__] *)
Definition init : HubConnectionBuilder :=
  {| core := {| Builder.hub_url := None; Builder._hub := None;
                Builder.store := []; Builder.effects := [] |};
     options := {[ "access_token_factory" := PyNone ]};
     has_auth_configured := None |}.

(** The builder after a [with_url] that found nothing to refuse. *)
Definition configured (hub_url : option string) (opts : pyobj)
    (b : HubConnectionBuilder) : HubConnectionBuilder :=
  {| core := {| Builder.hub_url := hub_url; Builder._hub := None;
                Builder.store := Builder.store (core b);
                Builder.effects := Builder.effects (core b) |};
     options := match opts with
                | Dict d => d
                | Value _ => options b
                end;
     has_auth_configured :=
       if negb (is_none opts)
       then Some (has_factory opts && factory_callable opts)
       else has_auth_configured b |}.

Section WithUrl.

(** The text Python prints for a dict (in an error message). *)
Variable dict_repr : gmap string pyval -> string.

(** [hub_url] is [None] or a string.  The source tests
    [hub_url.strip() is ""]; CPython has one empty string object, so the
    test holds exactly when the stripped text is empty.  The method
    returns [self]: the builder after the call. *)
Definition with_url (hub_url : option string) (opts : pyobj)
    (b : HubConnectionBuilder) : result unit * HubConnectionBuilder :=
  if match hub_url with
     | None => true
     | Some u => bool_decide (strip u = "")
     end
  then (Raise (HubConnectionError "hub_url must be a valid url."), b)
  else if negb (is_none opts) && not_dict opts
  then (Raise (HubConnectionError
                 ("options must be a dict " +:+ dict_repr (options b) +:+ ".")),
        b)
  else if negb (is_none opts) && has_factory opts
          && negb (factory_callable opts)
  then (Raise (HubConnectionError
                 "access_token_factory must be a function without params"),
        b)
  else (Ok tt, configured hub_url opts b).

End WithUrl.

(** The arguments [with_url] refuses. *)
Definition refused (hub_url : option string) (opts : pyobj) : Prop :=
  hub_url = None \/
  (exists u, hub_url = Some u /\ blank u = true) \/
  (exists v, opts = Value v /\ v <> PyNone) \/
  (exists d v, opts = Dict d /\ d !! "access_token_factory" = Some v /\
               is_callable v = false).

(** What [build] relies on: when authentication is configured, the
    options hold a callable token factory. *)
Definition auth_ok (b : HubConnectionBuilder) : Prop :=
  has_auth_configured b = Some true ->
  exists f, options b !! "access_token_factory" = Some (PyFun f).

(** The dict [on_disconnect] receives, by key: [None] when the key is
    missing.  [max_attemps] may be present and [None]. *)
Record DisconnectData : Type := {
  data_type : option string;
  data_max_attemps : option (option Z);
  data_reconnect_interval : option Z;
  data_keep_alive_interval : option Z
}.

Definition on_disconnect (data : DisconnectData) :=
  let reconnect_type := default "raw" (data_type data) in
  let max_attemps := default None (data_max_attemps data) in
  let reconnect_interval := default 5 (data_reconnect_interval data) in
  let keep_alive_interval := default 15 (data_keep_alive_interval data) in
  Builder.on_hub "configure_reconnection"
    (configure_reconnection reconnect_type keep_alive_interval
       reconnect_interval max_attemps).

Definition start := Builder.on_hub "start" start.

Definition stop := Builder.on_hub "stop" stop.

End Setup.

(** ** The chat example *)

Section Chat.

(** [input(prompt)]: the line read, and [text.format(value)]. *)
Variable input : string -> option string.
Variable format : string -> string -> string.

Definition input_with_default (input_text default_value : string) : string :=
  match input (format input_text default_value) with
  | None => default_value
  | Some value =>
      if bool_decide (strip value = "") then default_value else value
  end.

End Chat.

(** ** Sample inputs *)

(** A hub whose handshake has been received. *)
Definition connected_world : World :=
  with_hub (set_handshake_received true) (new_world "ws://localhost/chathub" 0).

Definition sample_registrations : list (string * nat) :=
  [("ReceiveMessage", 7%nat); ("Other", 8%nat); ("ReceiveMessage", 9%nat)].

Definition sample_invocation : Message :=
  InvocationMessage [] "1" "ReceiveMessage" (PyList [PyStr "hi"]).

(** A hub after a successful handshake: connected and alive. *)
Definition alive_world : World :=
  with_hub (set_connection_alive true) connected_world.

(** A started hub with a reconnection handler that is not reconnecting. *)
Definition policy_world : World :=
  with_hub (set_reconnection_handler
              (Some {| class_name := "RawReconnectionHandler"; sleep_time := 5;
                       max_attemps := None; reconnecting := false |}))
    (with_hub (set_ws (Some {| ws_url := "ws://localhost/chathub";
                               ws_header := [] |})) alive_world).

(** A subscription object with three callables. *)
Definition sample_callbacks : gmap string pyval :=
  <["next" := PyFun 1]> (<["complete" := PyFun 2]> (<["error" := PyFun 3]> ∅)).

Definition sample_completion : Message := CompletionMessage "uuid-1" PyNone None.

Definition completion_protocol : Protocol := fixed_protocol None [sample_completion].

(** A hub from its construction on: started, its socket open, the
    handshake answered (the flags are set before the missing handler
    raises), and one [stream] call made.  Nothing was subscribed. *)
Definition fresh_stream_world : World :=
  run completion_protocol
    [Start; OnOpen 1 None; OnMessage "{}" 2;
     Stream "Counter" (PyList [PyInt 10]) "uuid-1" 3 None]
    (new_world "ws://localhost/chathub" 0).

(** A protocol whose frames carry the cancellation of "uuid-1". *)
Definition cancel_protocol : Protocol :=
  fixed_protocol None [CancelInvocationMessage "uuid-1"].

(** A hub with one stream under way, its handler subscribed. *)
Definition streaming_world : World :=
  snd (subscribe 0 (Some sample_callbacks)
         (snd (stream completion_protocol "Counter" (PyList [PyInt 10]) "uuid-1"
                 1 None policy_world))).

(** A subscription object whose [next] is [None]. *)
Definition none_callbacks : gmap string pyval :=
  <["next" := PyNone]> (<["complete" := PyFun 2]> (<["error" := PyFun 3]> ∅)).

(** A subscription object without [complete]. *)
Definition partial_callbacks : gmap string pyval :=
  <["next" := PyFun 1]> (<["error" := PyFun 3]> ∅).

(** A hub with one stream under way, its handler not subscribed. *)
Definition unsubscribed_world : World :=
  snd (stream completion_protocol "Counter" (PyList [PyInt 10]) "uuid-1"
         1 None policy_world).

(** A builder after [build], its hub started. *)
Definition built_builder : Builder.HubConnectionBuilder :=
  {| Builder.hub_url := Some "ws://localhost/chathub";
     Builder._hub := Some (hub policy_world);
     Builder.store := []; Builder.effects := [] |}.

(** A handler that is reconnecting, and a hub that has reconnected. *)
Definition reconnecting_handler : ReconnectionHandler :=
  {| class_name := "RawReconnectionHandler"; sleep_time := 5;
     max_attemps := None; reconnecting := true |}.

Definition reconnected_world : World :=
  with_hub (set_connection_alive false)
    (with_hub (set_reconnection_handler (Some reconnecting_handler))
       policy_world).

(** What follows a reconnection: another failed write, the new socket
    opens, its first frame arrives, the application restarts the hub. *)
Definition after_reconnection : list op :=
  [Send PingMessage 5 (Some (ConnectionResetError "reset"));
   OnOpen 6 None; OnMessage "{}" 7; Stop; Start].

(** The [on_disconnect] call of the chat example. *)
Definition chat_disconnect_data : Setup.DisconnectData :=
  {| Setup.data_type := Some "raw";
     Setup.data_max_attemps := Some (Some 5);
     Setup.data_reconnect_interval := Some 5;
     Setup.data_keep_alive_interval := Some 10 |}.

(** * Properties *)

(** ** The trace and the hub under composition *)

Lemma add_trace_nil (w : World) : add_trace [] w = w.
Proof. destruct w; unfold add_trace; simpl. by rewrite app_nil_r. Qed.

Lemma add_trace_app (a b : list effect) (w : World) :
  add_trace b (add_trace a w) = add_trace (a ++ b) w.
Proof. unfold add_trace; simpl. by rewrite app_assoc. Qed.

Lemma for_each_emit {A} (f : A -> effect) (xs : list A) (w : World) :
  for_each xs (fun x => emit (f x)) w = (Ok tt, add_trace (map f xs) w).
Proof.
  revert w. induction xs as [|x xs IH]; intros w; simpl.
  - by rewrite add_trace_nil.
  - unfold bind, emit at 1. rewrite IH, add_trace_app. reflexivity.
Qed.

(** Registering handlers one after the other. *)
Lemma register_handlers (regs : list (string * nat)) (w : World) :
  for_each regs (fun h => register_handler (fst h) (snd h)) w =
  (Ok tt, with_hub (fun h => set_handlers (handlers h ++ regs) h) w).
Proof.
  revert w. induction regs as [|[ev cb] regs IH]; intros w; simpl.
  - unfold ret, with_hub, set_handlers. rewrite app_nil_r.
    by destruct w as [[] ? ?].
  - unfold bind, register_handler at 1, update. rewrite IH.
    unfold with_hub, set_handlers; simpl. by rewrite <- app_assoc.
Qed.

(** Once the handshake has been received, a frame is decoded and
    dispatched. *)
Lemma on_message_after_handshake (protocol : Protocol) (raw_message : string)
    (now : Z) (w : World) :
  handshake_received (hub w) = true ->
  on_message protocol raw_message now w =
  dispatch (parse_messages protocol raw_message)
    (with_hub (touch now) w).
Proof.
  intros Hr. unfold on_message, bind, update, self; simpl. by rewrite Hr.
Qed.

Lemma invocation_dispatch (w : World) (hd : list (string * string))
    (id t : string) (args : pyval) :
  let fired := fired_handlers t (handlers (hub w)) in
  dispatch_message (InvocationMessage hd id t args) w =
  (Ok Next,
   add_trace ((if bool_decide (fired = [])
               then [warn_unhandled_event t] else [])
              ++ map (fun h => Invoke (snd h) (ArgValue args)) fired) w).
Proof.
  simpl. unfold bind, self; simpl.
  destruct (fired_handlers t (handlers (hub w))) as [|h fired] eqn:E.
  - done.
  - rewrite bool_decide_false by (simpl; lia).
    rewrite bool_decide_false by done.
    unfold ret at 1. rewrite for_each_emit. reflexivity.
Qed.

Lemma dispatch_cons (m : Message) (rest : list Message) (w : World) :
  dispatch (m :: rest) w =
  match dispatch_message m w with
  | (Ok Next, w') => dispatch rest w'
  | (Ok Return, w') => (Ok tt, w')
  | (Raise ex, w') => (Raise ex, w')
  end.
Proof.
  cbn [dispatch]. unfold bind.
  by destruct (dispatch_message m w) as [[[]|] ?].
Qed.

(** C1. Whatever handlers were registered, and in whatever order, an
    [Invocation] with target [t] invokes with the message's arguments the
    callbacks registered under [t], each once, in registration order, and
    nothing else; with no such handler the only effect is the
    unhandled-event warning; in both cases the loop goes on with the next
    message of the batch. *)
Theorem invocation_fires_matching_handlers
    (protocol : Protocol) (w : World) (regs : list (string * nat))
    (hd : list (string * string)) (id t : string) (args : pyval)
    (raw_message : string) (now : Z) (rest : list Message) :
  let msg := InvocationMessage hd id t args in
  let w1 := snd (for_each regs (fun h => register_handler (fst h) (snd h)) w) in
  let fired := filter (fun h => fst h = t) (handlers (hub w) ++ regs) in
  let effects :=
    (if bool_decide (fired = []) then [warn_unhandled_event t] else [])
    ++ map (fun h => Invoke (snd h) (ArgValue args)) fired in
  handshake_received (hub w) = true ->
  parse_messages protocol raw_message = msg :: rest ->
  handlers (hub w1) = handlers (hub w) ++ regs /\
  dispatch_message msg w1 = (Ok Next, add_trace effects w1) /\
  on_message protocol raw_message now w1 =
    dispatch rest
      (add_trace effects (with_hub (touch now) w1)).
Proof.
  intros msg w1 fired effects Hr Hp.
  assert (Hw1 : handlers (hub w1) = handlers (hub w) ++ regs).
  { unfold w1. by rewrite register_handlers. }
  assert (Hd : forall w', handlers (hub w') = handlers (hub w) ++ regs ->
             dispatch_message msg w' = (Ok Next, add_trace effects w')).
  { intros w' Hw'. unfold msg. rewrite invocation_dispatch.
    unfold fired_handlers. rewrite Hw'. reflexivity. }
  split; [done|]. split; [by apply Hd|].
  rewrite on_message_after_handshake.
  - rewrite Hp, dispatch_cons, Hd; [done|]. simpl. by rewrite Hw1.
  - unfold w1. rewrite register_handlers. done.
Qed.

Lemma invocation_fires_matching_handlers_witness :
  trace (snd (on_message
                (fixed_protocol None [sample_invocation; PingMessage])
                "frame" 5
                (snd (for_each sample_registrations
                        (fun h => register_handler (fst h) (snd h))
                        connected_world))))
  = [Invoke 7 (ArgValue (PyList [PyStr "hi"]));
     Invoke 9 (ArgValue (PyList [PyStr "hi"]))].
Proof.
  destruct (invocation_fires_matching_handlers
              (fixed_protocol None [sample_invocation; PingMessage])
              connected_world sample_registrations [] "1" "ReceiveMessage"
              (PyList [PyStr "hi"]) "frame" 5 [PingMessage]
              eq_refl eq_refl) as (_ & _ & ->).
  vm_compute. reflexivity.
Defined.

(** ** The dispatch loop and [Close] *)







(** ** [send] and reconnection *)

Lemma send_closed_with_policy (protocol : Protocol) (message : Message)
    (now : Z) (ex : exn) (w : World) (app : WebSocketApp)
    (r : ReconnectionHandler) :
  _ws (hub w) = Some app ->
  is_connection_closed ex = true ->
  reconnection_handler (hub w) = Some r ->
  exists w',
    send protocol message now (Some ex) w = (Ok tt, w') /\
    connection_alive (hub w') = false /\
    reconnection_handler (hub w') = Some (set_reconnecting true r) /\
    is_Some (_ws (hub w')) /\
    heap w' = heap w /\
    stream_handlers (hub w') = stream_handlers (hub w) /\
    trace w' = trace w ++ closed_effect ex ::
                 (if reconnecting r then [] else reconnection_effects (hub w)).
Proof.
  intros Hws Hex Hr.
  unfold send, try_except, ws_send, bind, self. rewrite Hws. unfold raise.
  rewrite Hex. cbn [hub]. rewrite Hr.
  destruct (reconnecting r) eqn:Hrec; simpl.
  - eexists. split; [reflexivity|]. simpl. rewrite Hws.
    repeat split; try done.
    rewrite Hr. destruct r; simpl in *. by subst.
  - eexists. split; [reflexivity|]. simpl.
    repeat split; try done.
    unfold reconnection_effects, closed_effect. by rewrite <- !app_assoc.
Qed.

Lemma send_raises (protocol : Protocol) (message : Message)
    (now : Z) (ex : exn) (w : World) (app : WebSocketApp) :
  _ws (hub w) = Some app ->
  (is_connection_closed ex = true -> reconnection_handler (hub w) = None) ->
  send protocol message now (Some ex) w = (Raise ex, w).
Proof.
  intros Hws Hex.
  unfold send, try_except, ws_send, bind, self. rewrite Hws. unfold raise.
  destruct (is_connection_closed ex); [|done].
  cbn [hub]. by rewrite Hex.
Qed.

Lemma send_success (protocol : Protocol) (message : Message)
    (now : Z) (w : World) (app : WebSocketApp) :
  _ws (hub w) = Some app ->
  send protocol message now None w =
  (Ok tt, with_hub (touch now)
            (add_trace [TransportSend (encode protocol message)] w)).
Proof.
  intros Hws.
  unfold send, try_except, ws_send, bind, self. by rewrite Hws.
Qed.

Lemma send_closed_while_reconnecting (protocol : Protocol) (message : Message)
    (now : Z) (ex : exn) (v : World) (app : WebSocketApp)
    (r : ReconnectionHandler) :
  _ws (hub v) = Some app ->
  reconnection_handler (hub v) = Some r ->
  reconnecting r = true ->
  connection_alive (hub v) = false ->
  is_connection_closed ex = true ->
  send protocol message now (Some ex) v =
  (Ok tt, add_trace [closed_effect ex] v).
Proof.
  intros Hws Hr Hrec Halive Hex.
  unfold send, try_except, ws_send, bind, self. rewrite Hws. unfold raise.
  rewrite Hex. cbn [hub]. rewrite Hr. simpl. rewrite Hrec. simpl.
  unfold ret, add_trace, with_hub; simpl. f_equal.
  destruct v as [h ? ?]; simpl in *. destruct h; simpl in *. by subst.
Qed.

Lemma failing_sends_collapse (protocol : Protocol)
    (later : list (Message * Z * exn)) (v : World) (app : WebSocketApp)
    (r : ReconnectionHandler) :
  _ws (hub v) = Some app ->
  reconnection_handler (hub v) = Some r ->
  reconnecting r = true ->
  connection_alive (hub v) = false ->
  Forall (fun x => is_connection_closed (snd x) = true) later ->
  run protocol (map failing_send later) v =
  add_trace (map (fun x => closed_effect (snd x)) later) v.
Proof.
  intros Hws Hr Hrec Halive Hl. revert v Hws Hr Halive.
  induction Hl as [|[[m t] ex] later Hex _ IH]; intros v Hws Hr Halive.
  - simpl. by rewrite add_trace_nil.
  - simpl in *.
    rewrite (send_closed_while_reconnecting protocol m t ex v app r) by done.
    simpl. rewrite IH by done. by rewrite add_trace_app.
Qed.

(** One call of [send], and calls that run one after the other.  On a
    hub with a transport, when the write succeeds the frame is written
    and the liveness timestamp is set to the clock.  When the transport
    is closed, the error reaches the caller exactly when no reconnection
    handler is configured, and then nothing changes; with a handler the
    call returns normally, the hub is marked not alive, the
    [reconnecting] flag is set, and the reconnection sequence (stop, then
    start) runs only if the flag was not already set.  However many
    sends fail in the same way after that call has returned, each only
    logs the closed connection: no second sequence starts and the hub
    stays as it is.  Any other error is raised again unchanged, and
    nothing changes.  Calls that overlap are another matter: see
    [interleave] below. *)
Theorem send_reconnection_policy (protocol : Protocol) (message : Message)
    (now : Z) (w : World) (app : WebSocketApp) :
  _ws (hub w) = Some app ->
  (* the write succeeds *)
  (exists w', send protocol message now None w = (Ok tt, w') /\
     last_message (connection_checker (hub w')) = now /\
     trace w' = trace w ++ [TransportSend (encode protocol message)]) /\
  (* the transport is closed *)
  (forall ex, is_connection_closed ex = true ->
     (fst (send protocol message now (Some ex) w) = Raise ex <->
      reconnection_handler (hub w) = None) /\
     (reconnection_handler (hub w) = None ->
      send protocol message now (Some ex) w = (Raise ex, w)) /\
     (forall r, reconnection_handler (hub w) = Some r ->
        exists w',
          send protocol message now (Some ex) w = (Ok tt, w') /\
          connection_alive (hub w') = false /\
          reconnection_handler (hub w') = Some (set_reconnecting true r) /\
          trace w' = trace w ++ closed_effect ex ::
                       (if reconnecting r then []
                        else reconnection_effects (hub w)) /\
          (* further failures start no second reconnection *)
          forall later,
            Forall (fun x => is_connection_closed (snd x) = true) later ->
            run protocol (map failing_send later) w' =
            add_trace (map (fun x => closed_effect (snd x)) later) w')) /\
  (* any other error *)
  (forall ex, is_connection_closed ex = false ->
     send protocol message now (Some ex) w = (Raise ex, w)).
Proof.
  intros Hws. split; [|split].
  - eexists. split; [exact (send_success protocol message now w app Hws)|].
    done.
  - intros ex Hex. split; [|split].
    + split.
      * intros Hraise. destruct (reconnection_handler (hub w)) as [r|] eqn:Hr; [|done].
        destruct (send_closed_with_policy protocol message now ex w app r)
          as (w' & E & _); try done.
        rewrite E in Hraise. done.
      * intros Hr. by rewrite (send_raises protocol message now ex w app).
    + intros Hr. by apply (send_raises protocol message now ex w app).
    + intros r Hr.
      destruct (send_closed_with_policy protocol message now ex w app r)
        as (w' & E & Halive & Hr' & [app' Hws'] & _ & _ & Htr); try done.
      exists w'. repeat split; try done.
      intros later Hlater.
      by apply (failing_sends_collapse protocol later w' app'
                  (set_reconnecting true r)).
  - intros ex Hex. apply (send_raises protocol message now ex w app); [done|].
    by rewrite Hex.
Qed.

Lemma send_reconnection_policy_witness :
  trace (snd (send (fixed_protocol None []) PingMessage 9
                (Some (ConnectionResetError "reset")) policy_world))
  = [closed_effect (ConnectionResetError "reset"); CheckerStop;
     TransportOpen "ws://localhost/chathub" []; CheckerStart].
Proof.
  destruct (send_reconnection_policy (fixed_protocol None []) PingMessage 9
              policy_world _ eq_refl) as (_ & Hclosed & _).
  destruct (Hclosed (ConnectionResetError "reset") eq_refl) as (_ & _ & Hr).
  destruct (Hr _ eq_refl) as (w' & E & _ & _ & Htr & _).
  rewrite E. exact Htr.
Defined.

(** *** Sends that overlap *)







(** ** Frames: what the operations leave alone *)

Section Frames.

Context (R : World -> World -> Prop) `{!Stable R}.

Lemma frame_ret {A} (a : A) : frame R (ret a).
Proof. intros w. reflexivity. Qed.

Lemma frame_raise {A} (ex : exn) : frame R (@raise A ex).
Proof. intros w. reflexivity. Qed.

Lemma frame_self : frame R self.
Proof. intros w. reflexivity. Qed.

Lemma frame_bind {A B} (m : M A) (k : A -> M B) :
  frame R m -> (forall a, frame R (k a)) -> frame R (bind m k).
Proof.
  intros Hm Hk w. unfold bind. specialize (Hm w).
  destruct (m w) as [[a|ex] w1]; simpl in *; [|done].
  etrans; [exact Hm|apply Hk].
Qed.

Lemma frame_try_except {A} (m : M A) (handler : exn -> M A) :
  frame R m -> (forall ex, frame R (handler ex)) -> frame R (try_except m handler).
Proof.
  intros Hm Hh w. unfold try_except. specialize (Hm w).
  destruct (m w) as [[a|ex] w1]; simpl in *; [done|].
  etrans; [exact Hm|apply Hh].
Qed.

Lemma frame_emit (e : effect) : frame R (emit e).
Proof. intros w. apply stable_trace. Qed.

Lemma frame_update (f : BaseHubConnection -> BaseHubConnection) :
  (forall h, stream_handlers (f h) = stream_handlers h) -> frame R (update f).
Proof. intros Hf w. by apply stable_hub. Qed.

Lemma frame_for_each {A} (xs : list A) (body : A -> M unit) :
  (forall x, frame R (body x)) -> frame R (for_each xs body).
Proof.
  intros Hb. induction xs as [|x xs IH]; simpl.
  - apply frame_ret.
  - apply frame_bind; [apply Hb|done].
Qed.

Lemma frame_attr {A} (r : ref) (f : StreamHandler -> A) : frame R (attr r f).
Proof. intros w. reflexivity. Qed.

Lemma frame_call (v : pyval) (arg : call_arg) : frame R (call v arg).
Proof. destruct v; first [apply frame_emit | apply frame_raise]. Qed.

Lemma frame_fired_stream_handlers (id : string) :
  frame R (fired_stream_handlers id).
Proof. intros w. reflexivity. Qed.

End Frames.

Ltac frame_step :=
  match goal with
  | |- Stable _ => assumption
  | |- forall h : BaseHubConnection, stream_handlers _ = stream_handlers _ =>
      intros []; reflexivity
  | |- forall _, frame _ _ => intros ?
  | |- frame _ (if ?b then _ else _) => destruct b
  | |- frame _ (match ?x with _ => _ end) => destruct x
  | |- frame _ _ =>
      first
        [ apply frame_ret | apply frame_raise | apply frame_self
        | apply frame_emit | apply frame_attr | apply frame_call
        | apply frame_fired_stream_handlers
        | apply frame_update
        | apply frame_bind
        | apply frame_try_except
        | apply frame_for_each ]
  end.

Ltac frame_auto := repeat frame_step.

Section StableFrames.

Context (R : World -> World -> Prop) `{!Stable R}.
Variable protocol : Protocol.

Lemma frame_start : frame R start.
Proof. unfold start. frame_auto. Qed.

Lemma frame_stop : frame R stop.
Proof. unfold stop, WebSocketApp_close. frame_auto. Qed.

Lemma frame_send (message : Message) (now : Z) (io : option exn) :
  frame R (send protocol message now io).
Proof.
  unfold send, ws_send, touch. frame_auto.
Qed.

Lemma frame_on_open (now : Z) (io : option exn) :
  frame R (on_open protocol now io).
Proof. unfold on_open. frame_auto. Qed.

Lemma frame_evaluate_handshake (message : string) :
  frame R (evaluate_handshake protocol message).
Proof. unfold evaluate_handshake. frame_auto. Qed.

Lemma frame_on_close : frame R on_close.
Proof. unfold on_close. frame_auto. Qed.

Lemma frame_on_error (err : exn) : frame R (on_error err).
Proof. unfold on_error. frame_auto. Qed.

Lemma frame_register_handler (ev : string) (cb : nat) :
  frame R (register_handler ev cb).
Proof. unfold register_handler. frame_auto. Qed.

Lemma frame_configure_reconnection (t : string) (k i : Z) (a : option Z) :
  frame R (configure_reconnection t k i a).
Proof.
  unfold configure_reconnection, configure_reconnection_in,
    ReconnectionType_getitem, instantiate.
  frame_auto.
Qed.

End StableFrames.

Lemma same_tracker_stable : Stable same_tracker.
Proof.
  split.
  - split.
    + by intros w.
    + intros w1 w2 w3 [? ?] [? ?]. split; congruence.
  - by intros w es.
  - intros w f Hf. split; [done|]. apply Hf.
Qed.

Lemma steady_stable : Stable steady.
Proof.
  split.
  - split.
    + by intros w.
    + intros w1 w2 w3 (? & H12 & ?) (? & H23 & ?).
      split; [congruence|]. split; [|by etrans].
      intros r. by rewrite H23, H12.
  - by intros w es.
  - intros w f Hf. split; [done|]. split; [done|]. simpl. by rewrite Hf.
Qed.

#[local] Existing Instances same_tracker_stable steady_stable.

Lemma same_tracker_steady (w w' : World) : same_tracker w w' -> steady w w'.
Proof.
  intros [Hh Hs]. unfold steady, deref. rewrite Hh, Hs. done.
Qed.

Lemma frame_unregister (id : string) : frame steady (unregister id).
Proof.
  intros w. split; [done|]. split; [done|]. simpl.
  apply sublist_filter.
Qed.

Lemma frame_store (r : ref) (f : StreamHandler -> StreamHandler) :
  (forall o, invocation_id (f o) = invocation_id o) ->
  frame steady (store r f).
Proof.
  intros Hf w. split; [|split; [|reflexivity]]; simpl.
  - apply length_alter.
  - intros r'. unfold deref; simpl. rewrite !nth_lookup, list_lookup_alter.
    case_decide; [subst r'|done].
    destruct (heap w !! r); simpl; [apply Hf|done].
Qed.

Ltac steady_step :=
  match goal with
  | |- frame steady (unregister _) => apply frame_unregister
  | |- frame steady (store _ _) => apply frame_store; intros []; reflexivity
  | |- Stable steady => apply steady_stable
  | _ => frame_step
  end.

Lemma frame_subscribe (r : ref) (cbs : option (gmap string pyval)) :
  frame steady (subscribe r cbs).
Proof. unfold subscribe, getitem. repeat steady_step. Qed.

Lemma frame_dispatch_message (m : Message) : frame steady (dispatch_message m).
Proof. unfold dispatch_message. repeat steady_step. Qed.

Lemma frame_dispatch (ms : list Message) : frame steady (dispatch ms).
Proof.
  induction ms as [|m ms IH]; simpl.
  - repeat steady_step.
  - apply frame_bind; [apply steady_stable|apply frame_dispatch_message|].
    by intros [].
Qed.

Lemma frame_on_message (protocol : Protocol) (raw : string) (now : Z) :
  frame steady (on_message protocol raw now).
Proof.
  unfold on_message, touch.
  repeat first [apply frame_dispatch | apply frame_evaluate_handshake
               | steady_step].
Qed.

(** Every operation but [stream] leaves the tracked handlers, or fewer,
    with the invocation ids they had. *)
Lemma exec_steady (protocol : Protocol) (o : op) (w : World) :
  (forall ev params uid now io, o <> Stream ev params uid now io) ->
  steady w (exec protocol o w).
Proof.
  intros Ho. destruct o; unfold exec.
  - apply frame_on_open, _.
  - apply frame_on_message.
  - apply frame_on_close, _.
  - apply frame_on_error, _.
  - apply frame_send, _.
  - by destruct (Ho ev event_params uid now io).
  - apply frame_subscribe.
  - apply frame_register_handler, _.
  - apply frame_configure_reconnection, _.
  - apply frame_start, _.
  - apply frame_stop, _.
Qed.

Lemma deref_track_new (ev uid : string) (w : World) :
  deref (track ev uid w) (length (heap w)) = StreamHandler_init ev uid.
Proof. unfold deref, track; simpl. by rewrite nth_middle. Qed.

Lemma deref_track_old (ev uid : string) (w : World) (r : nat) :
  (r < length (heap w))%nat -> deref (track ev uid w) r = deref w r.
Proof. intros Hr. unfold deref, track; simpl. by rewrite app_nth1. Qed.

Lemma stream_unfold (protocol : Protocol) (ev : string) (params : pyval)
    (uid : string) (now : Z) (io : option exn) (w : World) :
  stream protocol ev params uid now io w =
  (match fst (send protocol (StreamInvocationMessage [] uid ev params) now io
                (track ev uid w)) with
   | Ok _ => Ok (length (heap w))
   | Raise ex => Raise ex
   end,
   snd (send protocol (StreamInvocationMessage [] uid ev params) now io
          (track ev uid w))).
Proof.
  unfold stream, bind, alloc, update, with_hub, ret; simpl.
  fold (track ev uid w).
  by destruct (send _ _ _ _ (track ev uid w)) as [[[]|] ?].
Qed.

(** C10. [stream] creates a [StreamHandler] with the generated id and
    appends it to the tracker, and only then calls [send], in the world
    [track ev uid w] where the handler is already tracked and nothing has
    been written.  Whatever the write does (it succeeds, it fails and the
    error is raised, it fails and reconnection swallows the error), the
    tracker afterwards is the old one followed by the new handler: no path
    removes it again. *)
Theorem stream_keeps_registration (protocol : Protocol) (ev : string)
    (params : pyval) (uid : string) (now : Z) (io : option exn) (w : World) :
  let r := length (heap w) in
  let message := StreamInvocationMessage [] uid ev params in
  let w1 := snd (stream protocol ev params uid now io w) in
  stream protocol ev params uid now io w =
    (match fst (send protocol message now io (track ev uid w)) with
     | Ok _ => Ok r
     | Raise ex => Raise ex
     end,
     snd (send protocol message now io (track ev uid w))) /\
  stream_handlers (hub (track ev uid w)) = stream_handlers (hub w) ++ [r] /\
  deref (track ev uid w) r = StreamHandler_init ev uid /\
  trace (track ev uid w) = trace w /\
  stream_handlers (hub w1) = stream_handlers (hub w) ++ [r] /\
  heap w1 = heap w ++ [StreamHandler_init ev uid] /\
  deref w1 r = StreamHandler_init ev uid.
Proof.
  intros r message w1.
  split; [apply stream_unfold|].
  split; [done|]. split; [apply deref_track_new|]. split; [done|].
  destruct (frame_send same_tracker protocol message now io (track ev uid w))
    as [Hheap Hsh].
  assert (Hw1 : w1 = snd (send protocol message now io (track ev uid w))).
  { unfold w1. by rewrite stream_unfold. }
  rewrite Hw1. split; [by rewrite Hsh|]. split; [by rewrite Hheap|].
  unfold deref. rewrite Hheap. apply deref_track_new.
Qed.

Lemma steady_inv (uid : string) (w w' : World) :
  steady w w' -> tracker_inv uid w -> tracker_inv uid w'.
Proof.
  intros (Hlen & Hid & Hsub) [Hwf Habs]. split.
  - unfold tracker_wf in *. rewrite Hlen.
    eapply Forall_forall. intros r Hr.
    eapply Forall_forall in Hwf; [done|]. by eapply sublist_subseteq.
  - unfold absent in *. eapply Forall_forall. intros r Hr. rewrite Hid.
    eapply Forall_forall in Habs; [done|]. by eapply sublist_subseteq.
Qed.

Lemma track_inv (uid ev uid' : string) (w : World) :
  uid' <> uid -> tracker_inv uid w -> tracker_inv uid (track ev uid' w).
Proof.
  intros Hne [Hwf Habs]. split.
  - unfold tracker_wf in *. simpl. rewrite length_app; simpl.
    apply Forall_app. split.
    + eapply Forall_impl; [exact Hwf|]. simpl. lia.
    + apply Forall_singleton. lia.
  - unfold absent in *. simpl. apply Forall_app. split.
    + eapply Forall_forall. intros r Hr.
      rewrite deref_track_old.
      * eapply Forall_forall in Habs; done.
      * eapply Forall_forall in Hwf; done.
    + apply Forall_singleton. by rewrite deref_track_new.
Qed.

Lemma exec_inv (protocol : Protocol) (uid : string) (o : op) (w : World) :
  draws_other_id uid o -> tracker_inv uid w ->
  tracker_inv uid (exec protocol o w).
Proof.
  intros Ho Hinv.
  destruct o; try (eapply steady_inv; [apply exec_steady; intros; discriminate|done]).
  simpl in *. rewrite stream_unfold; simpl.
  eapply steady_inv.
  - apply same_tracker_steady. apply (frame_send same_tracker).
  - by apply track_inv.
Qed.

Lemma run_inv (protocol : Protocol) (uid : string) (ops : list op) (w : World) :
  Forall (draws_other_id uid) ops -> tracker_inv uid w ->
  tracker_inv uid (run protocol ops w).
Proof.
  intros Hops. revert w. induction Hops as [|o ops Ho _ IH]; intros w Hinv.
  - done.
  - simpl. apply IH. by apply exec_inv.
Qed.

(** ** The stream tracker: completion and cancellation *)

Lemma deref_add_trace (es : list effect) (w : World) (r : nat) :
  deref (add_trace es w) r = deref w r.
Proof. reflexivity. Qed.

(** Calling one callback attribute of each handler of a list, when every
    one of them holds a callable. *)
Lemma for_each_call (fld : StreamHandler -> pyval) (arg : call_arg)
    (refs : list nat) (cbs : list nat) (w : World) :
  Forall2 (fun r f => fld (deref w r) = PyFun f) refs cbs ->
  for_each refs (fun r => cb <- attr r fld ;; call cb arg) w =
  (Ok tt, add_trace (map (fun f => Invoke f arg) cbs) w).
Proof.
  intros H. revert w H. revert cbs.
  induction refs as [|r refs IH]; intros cbs w H.
  - apply Forall2_nil_inv_l in H as ->. simpl. by rewrite add_trace_nil.
  - apply Forall2_cons_inv_l in H as (f & cbs' & Hf & H & ->).
    cbn [for_each]. unfold bind at 1. unfold bind at 1, attr at 1.
    rewrite Hf. cbn [call]. unfold emit at 1.
    rewrite (IH cbs'); [by rewrite add_trace_app|done].
Qed.

Lemma with_hub_same_tracker (w : World) :
  with_hub (set_stream_handlers (stream_handlers (hub w))) w = w.
Proof. by destruct w as [[] ? ?]. Qed.

Lemma filter_none_all {A} (P : A -> Prop) `{!forall x, Decision (P x)}
    (l : list A) :
  filter P l = [] -> filter (fun x => ~ P x) l = l.
Proof.
  induction l as [|x l IH]; [done|].
  rewrite !filter_cons. destruct (decide (P x)); [done|].
  intros Hl. rewrite decide_True by done. by rewrite IH.
Qed.

Lemma filter_complement_none {A} (P : A -> Prop) `{!forall x, Decision (P x)}
    (l : list A) :
  filter P (filter (fun x => ~ P x) l) = [].
Proof.
  induction l as [|x l IH]; [done|].
  rewrite filter_cons. destruct (decide (~ P x)); [|done].
  rewrite filter_cons. by rewrite decide_False.
Qed.

Lemma unregister_world (id : string) (w : World) :
  unregister id w =
  (Ok tt, with_hub (set_stream_handlers
                      (filter (fun r => invocation_id (deref w r) <> id)
                              (stream_handlers (hub w)))) w).
Proof. reflexivity. Qed.

Lemma unregister_unmatched (id : string) (w : World) :
  tracked id w = [] -> unregister id w = (Ok tt, w).
Proof.
  intros H. rewrite unregister_world.
  unfold tracked in H. apply filter_none_all in H. rewrite H.
  by rewrite with_hub_same_tracker.
Qed.

Lemma cancel_unmatched (id : string) (w : World) :
  tracked id w = [] ->
  dispatch_message (CancelInvocationMessage id) w =
  (Ok Next, add_trace [warn_unhandled_stream id] w).
Proof.
  intros H. cbn [dispatch_message]. unfold bind at 1.
  unfold fired_stream_handlers. fold (tracked id w). rewrite H. simpl.
  unfold bind, emit, ret.
  by rewrite unregister_unmatched.
Qed.

Lemma stream_item_unmatched (id : string) (item : pyval) (w : World) :
  tracked id w = [] ->
  dispatch_message (StreamItemMessage id item) w =
  (Ok Next, add_trace [warn_unhandled_stream id] w).
Proof.
  intros H. cbn [dispatch_message]. unfold bind at 1.
  unfold fired_stream_handlers. fold (tracked id w). by rewrite H.
Qed.

Lemma cancel_matched (id : string) (w : World) (cbs : list nat) :
  tracked id w <> [] ->
  Forall2 (fun r f => error_callback (deref w r) = PyFun f) (tracked id w) cbs ->
  dispatch_message (CancelInvocationMessage id) w =
  (Ok Next,
   with_hub (set_stream_handlers
               (filter (fun r => invocation_id (deref w r) <> id)
                       (stream_handlers (hub w))))
     (add_trace (map (fun f => Invoke f (ArgMessage (CancelInvocationMessage id)))
                     cbs) w)).
Proof.
  intros Hne Hcbs. cbn [dispatch_message]. unfold bind at 1.
  unfold fired_stream_handlers. fold (tracked id w).
  rewrite bool_decide_false by (by destruct (tracked id w)).
  unfold bind at 1, ret at 1. unfold bind at 1.
  rewrite (for_each_call _ _ _ cbs) by done.
  unfold bind, ret. by rewrite unregister_world.
Qed.

Lemma completion_matched (id : string) (res : pyval) (err : option string)
    (w : World) (cbs : list nat) :
  Forall2 (fun r f => complete_callback (deref w r) = PyFun f)
    (tracked id w) cbs ->
  dispatch_message (CompletionMessage id res err) w =
  (Ok Next,
   with_hub (set_stream_handlers
               (filter (fun r => invocation_id (deref w r) <> id)
                       (stream_handlers (hub w))))
     (add_trace (map (fun f => Invoke f (ArgMessage (CompletionMessage id res err)))
                     cbs) w)).
Proof.
  intros Hcbs. cbn [dispatch_message]. unfold bind at 1.
  unfold fired_stream_handlers. fold (tracked id w).
  unfold bind at 1.
  rewrite (for_each_call _ _ _ cbs) by done.
  unfold bind, ret. by rewrite unregister_world.
Qed.

(** C5 as stated fails: a tracked handler need not hold an error
    callback.  A hub is built, started and past its handshake, [stream]
    draws "uuid-1" ([fresh_stream_world]), and the next frame carries the
    [CancelInvocation] for that id: [on_message] raises [TypeError], no
    callback is called, and the handler is still tracked. *)
Lemma cancel_after_stream_raises :
  tracked "uuid-1" fresh_stream_world = [0%nat] /\
  fst (on_message cancel_protocol "frame" 4 fresh_stream_world)
    = Raise (TypeError "'NoneType' object is not callable") /\
  trace (snd (on_message cancel_protocol "frame" 4 fresh_stream_world))
    = [TransportOpen "ws://localhost/chathub" []; CheckerStart;
       Log INFO "-- web socket open --"; TransportSend "frame";
       TransportSend "frame"] /\
  stream_handlers
    (hub (snd (on_message cancel_protocol "frame" 4 fresh_stream_world)))
    = [0%nat].
Proof. vm_compute. done. Qed.

(** C5, amended.  A [CancelInvocation] whose id matches tracked handlers,
    each holding a callable error callback ([cbs], one per tracked handler, in
    tracker order), returns normally; its effects are exactly one call of
    each of these callbacks with the message, in that order; the tracker
    keeps the handlers with another id and loses those with this one.
    After that no tracked handler has the id, and a second
    [CancelInvocation] for it only logs the unmatched warning: hub and
    store stay as they are. *)
Theorem cancel_invocation_once (id : string) (w : World) (cbs : list nat) :
  tracked id w <> [] ->
  Forall2 (fun r f => error_callback (deref w r) = PyFun f) (tracked id w) cbs ->
  exists w1,
    dispatch_message (CancelInvocationMessage id) w = (Ok Next, w1) /\
    trace w1 = trace w ++
      map (fun f => Invoke f (ArgMessage (CancelInvocationMessage id))) cbs /\
    length cbs = length (tracked id w) /\
    stream_handlers (hub w1) =
      filter (fun r => invocation_id (deref w r) <> id) (stream_handlers (hub w)) /\
    heap w1 = heap w /\
    Forall (fun r => ~ In r (stream_handlers (hub w1))) (tracked id w) /\
    tracked id w1 = [] /\
    dispatch_message (CancelInvocationMessage id) w1 =
      (Ok Next, add_trace [warn_unhandled_stream id] w1).
Proof.
  intros Hne Hcbs. eexists. split; [by apply cancel_matched|].
  split; [done|]. split; [by apply Forall2_length in Hcbs|].
  split; [done|]. split; [done|].
  split.
  { apply Forall_forall. intros r Hr Hin. simpl in Hin.
    apply list_elem_of_In, list_elem_of_filter in Hin as [Hne' _].
    apply list_elem_of_filter in Hr as [Heq _]. done. }
  assert (Hgone : forall w', heap w' = heap w ->
            stream_handlers (hub w') =
              filter (fun r => invocation_id (deref w r) <> id)
                     (stream_handlers (hub w)) ->
            tracked id w' = []).
  { intros w' Hh Hs. unfold tracked. rewrite Hs. unfold deref. rewrite Hh.
    apply (filter_complement_none
             (fun r => invocation_id (nth r (heap w) (StreamHandler_init "" "")) = id)). }
  split; [by apply Hgone|]. apply cancel_unmatched. by apply Hgone.
Qed.

Lemma subscribe_ok (r : nat) (d : gmap string pyval) (n c e : pyval) (w : World) :
  d !! "next" = Some n -> d !! "complete" = Some c -> d !! "error" = Some e ->
  subscribe r (Some d) w = (Ok tt, store_world r (subscribed n c e) w).
Proof.
  intros Hn Hc He. unfold subscribe, getitem, bind. rewrite Hn, Hc, He.
  unfold ret, store, store_world; simpl. unfold subscribed.
  by rewrite !list_alter_alter_eq.
Qed.

Lemma absent_tracked (uid : string) (w : World) :
  absent uid w -> tracked uid w = [].
Proof.
  unfold absent, tracked. induction 1 as [|r l Hr _ IH]; [done|].
  rewrite filter_cons. by rewrite decide_False.
Qed.

Lemma send_handshake_received (protocol : Protocol) (message : Message)
    (now : Z) (io : option exn) (w : World) :
  handshake_received (hub (snd (send protocol message now io w))) =
  handshake_received (hub w).
Proof.
  unfold send, try_except, ws_send, bind, self, raise.
  destruct (_ws (hub w)); [destruct io as [ex|]|]; simpl; try done;
    try (destruct (is_connection_closed ex); [|done]);
    cbn [hub]; destruct (reconnection_handler (hub w)) as [r|]; try done;
    destruct (reconnecting r); done.
Qed.

Lemma filter_none {A} (P : A -> Prop) `{!forall x, Decision (P x)} (l : list A) :
  Forall (fun x => ~ P x) l -> filter P l = [].
Proof.
  induction 1 as [|x l Hx _ IH]; [done|].
  rewrite filter_cons. by rewrite decide_False.
Qed.

Lemma filter_all {A} (P : A -> Prop) `{!forall x, Decision (P x)} (l : list A) :
  Forall P l -> filter P l = l.
Proof.
  induction 1 as [|x l Hx _ IH]; [done|].
  rewrite filter_cons. rewrite decide_True by done. by rewrite IH.
Qed.

(** The store after [stream] and [subscribe]: the new object, subscribed,
    behind the new reference; the old objects behind the old ones. *)
Lemma deref_subscribed_new (f : StreamHandler -> StreamHandler)
    (o : StreamHandler) (w w' : World) :
  heap w' = alter f (length (heap w)) (heap w ++ [o]) ->
  deref w' (length (heap w)) = f o.
Proof.
  intros Hh. unfold deref. rewrite Hh, nth_lookup, list_lookup_alter_eq.
  by rewrite list_lookup_middle.
Qed.

Lemma deref_subscribed_old (f : StreamHandler -> StreamHandler)
    (o : StreamHandler) (w w' : World) (r : nat) :
  heap w' = alter f (length (heap w)) (heap w ++ [o]) ->
  (r < length (heap w))%nat ->
  deref w' r = deref w r.
Proof.
  intros Hh Hr. unfold deref. rewrite Hh, !nth_lookup.
  rewrite list_lookup_alter_ne by lia. by rewrite lookup_app_l.
Qed.

(** C2 as stated fails: [stream] alone gives the handler no complete
    callback.  A hub is built, started and past its handshake, [stream]
    draws "uuid-1" ([fresh_stream_world]), and the next frame carries the
    [Completion] for that id: [on_message] raises [TypeError], no
    callback is called (the trace is the one before the frame: the
    socket opened, the handshake request and the invocation written),
    and the handler is still tracked. *)
Lemma completion_after_stream_raises :
  fst (on_message completion_protocol "frame" 4 fresh_stream_world)
    = Raise (TypeError "'NoneType' object is not callable") /\
  trace (snd (on_message completion_protocol "frame" 4 fresh_stream_world))
    = [TransportOpen "ws://localhost/chathub" []; CheckerStart;
       Log INFO "-- web socket open --"; TransportSend "frame";
       TransportSend "frame"] /\
  stream_handlers
    (hub (snd (on_message completion_protocol "frame" 4 fresh_stream_world)))
    = [0%nat] /\
  invocation_id (deref fresh_stream_world 0) = "uuid-1".
Proof. vm_compute. done. Qed.

(** C2, amended.  Take a hub whose handshake is done and whose tracker
    holds no handler with the id [uid] (the id is fresh).  After [stream]
    with that id and [subscribe] on the handler it registered (with a
    callable under "complete"), a frame that decodes to the [Completion] for [uid]
    is processed normally: its only effect is one call of the complete
    callback with the message, and the handler, tracked until then, is
    removed (the tracker is what it was before [stream]).  From then on,
    whatever else happens to the hub ([ops], any operations but a
    [stream] that draws [uid] again), a [StreamItem] or a
    [CancelInvocation] for [uid] matches no handler: its only effect is
    the unmatched warning, and no callback is called. *)
Theorem completion_completes_stream (protocol : Protocol) (w : World)
    (ev : string) (params : pyval) (uid : string) (now : Z) (io : option exn)
    (d : gmap string pyval) (n e : pyval) (c : nat)
    (raw_message : string) (now2 : Z) (res : pyval) (err : option string) :
  let r := length (heap w) in
  let completion := CompletionMessage uid res err in
  let w1 := snd (stream protocol ev params uid now io w) in
  let w2 := snd (subscribe r (Some d) w1) in
  handshake_received (hub w) = true ->
  tracker_wf w ->
  absent uid w ->
  d !! "next" = Some n -> d !! "complete" = Some (PyFun c) ->
  d !! "error" = Some e ->
  parse_messages protocol raw_message = [completion] ->
  exists w3,
    on_message protocol raw_message now2 w2 = (Ok tt, w3) /\
    trace w3 = trace w2 ++ [Invoke c (ArgMessage completion)] /\
    In r (stream_handlers (hub w2)) /\
    ~ In r (stream_handlers (hub w3)) /\
    stream_handlers (hub w3) = stream_handlers (hub w) /\
    forall ops, Forall (draws_other_id uid) ops ->
      let w4 := run protocol ops w3 in
      (forall item,
         dispatch_message (StreamItemMessage uid item) w4 =
         (Ok Next, add_trace [warn_unhandled_stream uid] w4)) /\
      dispatch_message (CancelInvocationMessage uid) w4 =
        (Ok Next, add_trace [warn_unhandled_stream uid] w4).
Proof.
  intros r completion w1 w2 Hhs Hwf Habs Hn Hc He Hp.
  set (message := StreamInvocationMessage [] uid ev params).
  set (f := subscribed n (PyFun c) e).
  set (o := StreamHandler_init ev uid).
  (* the world after [stream] *)
  assert (Hw1 : w1 = snd (send protocol message now io (track ev uid w))).
  { unfold w1. by rewrite stream_unfold. }
  destruct (frame_send same_tracker protocol message now io (track ev uid w))
    as [Hheap1 Hsh1]. rewrite <- Hw1 in Hheap1, Hsh1.
  assert (Hhs1 : handshake_received (hub w1) = true).
  { rewrite Hw1, send_handshake_received. exact Hhs. }
  (* the world after [subscribe] *)
  assert (Hw2 : w2 = {| hub := hub w1; heap := alter f r (heap w1);
                        trace := trace w1 |}).
  { unfold w2. by rewrite (subscribe_ok r d n (PyFun c) e). }
  assert (Hheap2 : heap w2 = alter f r (heap w ++ [o])).
  { rewrite Hw2; simpl. by rewrite Hheap1. }
  assert (Hsh2 : stream_handlers (hub w2) = stream_handlers (hub w) ++ [r]).
  { rewrite Hw2; simpl. by rewrite Hsh1. }
  assert (Hnew : invocation_id (deref w2 r) = uid /\
                 complete_callback (deref w2 r) = PyFun c).
  { pose proof (deref_subscribed_new f o w w2 Hheap2) as Hd.
    fold r in Hd. by rewrite Hd. }
  assert (Hold : Forall (fun r' => invocation_id (deref w2 r') <> uid)
                   (stream_handlers (hub w))).
  { apply Forall_forall. intros r' Hr'.
    rewrite (deref_subscribed_old f o w w2 r' Hheap2).
    - eapply Forall_forall in Habs; done.
    - eapply Forall_forall in Hwf; done. }
  assert (Hfresh : ~ In r (stream_handlers (hub w))).
  { intros Hin. apply list_elem_of_In in Hin.
    eapply Forall_forall in Hwf; [|exact Hin]. unfold r in Hwf. lia. }
  set (w2t := with_hub (touch now2) w2).
  assert (Htracked : tracked uid w2t = [r]).
  { unfold tracked, w2t; simpl. change (deref (with_hub (touch now2) w2))
      with (deref w2).
    rewrite Hsh2, filter_app.
    rewrite (filter_none _ (stream_handlers (hub w))).
    - rewrite filter_cons, decide_True by apply Hnew. done.
    - eapply Forall_impl; [exact Hold|]. simpl. tauto. }
  assert (Hkept : filter (fun r' => invocation_id (deref w2t r') <> uid)
                    (stream_handlers (hub w2t)) = stream_handlers (hub w)).
  { unfold w2t; simpl. change (deref (with_hub (touch now2) w2))
      with (deref w2).
    rewrite Hsh2, filter_app, filter_all by done.
    rewrite filter_cons, decide_False; [by rewrite app_nil_r|].
    intros Hne. by apply Hne, Hnew. }
  exists (with_hub (set_stream_handlers (stream_handlers (hub w)))
            (add_trace [Invoke c (ArgMessage completion)] w2t)).
  split; [|split; [|split; [|split; [|split]]]].
  - rewrite on_message_after_handshake; [|rewrite Hw2; exact Hhs1].
    rewrite Hp, dispatch_cons. unfold completion.
    rewrite (completion_matched uid res err _ [c]).
    + fold w2t. by rewrite Hkept.
    + fold w2t. rewrite Htracked. constructor; [apply Hnew|constructor].
  - done.
  - rewrite Hsh2. apply in_or_app. right. by left.
  - exact Hfresh.
  - done.
  - intros ops Hops w4.
    assert (Hinv : tracker_inv uid w4).
    { apply run_inv; [done|]. split.
      - unfold tracker_wf; simpl.
        rewrite Hheap2, length_alter, length_app; simpl.
        eapply Forall_impl; [exact Hwf|]. simpl. lia.
      - unfold absent; simpl. exact Hold. }
    destruct Hinv as [_ Habs4]. apply absent_tracked in Habs4.
    split.
    + intros item. by apply stream_item_unmatched.
    + by apply cancel_unmatched.
Qed.

Lemma completion_completes_stream_witness :
  trace (snd (on_message completion_protocol "frame" 2 streaming_world))
  = trace streaming_world ++ [Invoke 2 (ArgMessage sample_completion)]
  /\ stream_handlers (hub streaming_world) = [0%nat]
  /\ stream_handlers
       (hub (snd (on_message completion_protocol "frame" 2 streaming_world))) = [].
Proof.
  destruct (completion_completes_stream completion_protocol policy_world
              "Counter" (PyList [PyInt 10]) "uuid-1" 1 None sample_callbacks
              (PyFun 1) (PyFun 3) 2 "frame" 2 PyNone None)
    as (w3 & E & Htr & _ & _ & Hsh & _);
    [ reflexivity | by constructor | by constructor
    | vm_compute; reflexivity | vm_compute; reflexivity
    | vm_compute; reflexivity | reflexivity | ].
  change (on_message completion_protocol "frame" 2 streaming_world = (Ok tt, w3))
    in E.
  rewrite E. simpl.
  split; [exact Htr|]. split; [vm_compute; reflexivity|exact Hsh].
Defined.

Lemma cancel_invocation_once_witness :
  trace (snd (dispatch_message (CancelInvocationMessage "uuid-1") streaming_world))
  = trace streaming_world
    ++ [Invoke 3 (ArgMessage (CancelInvocationMessage "uuid-1"))].
Proof.
  assert (Ht : tracked "uuid-1" streaming_world = [0%nat])
    by (vm_compute; reflexivity).
  destruct (cancel_invocation_once "uuid-1" streaming_world [3%nat])
    as (w1 & E & Htr & _).
  - by rewrite Ht.
  - rewrite Ht. constructor; [vm_compute; reflexivity|constructor].
  - rewrite E. exact Htr.
Defined.

(** ** Reachable trackers, and handlers never subscribed *)

Lemma steady_wf (w w' : World) : steady w w' -> tracker_wf w -> tracker_wf w'.
Proof.
  intros (Hlen & _ & Hsub) Hwf. unfold tracker_wf in *. rewrite Hlen.
  eapply Forall_forall. intros r Hr.
  eapply Forall_forall in Hwf; [done|]. by eapply sublist_subseteq.
Qed.

Lemma track_wf (ev uid : string) (w : World) :
  tracker_wf w -> tracker_wf (track ev uid w).
Proof.
  intros Hwf. unfold tracker_wf in *. simpl. rewrite length_app; simpl.
  apply Forall_app. split.
  - eapply Forall_impl; [exact Hwf|]. simpl. lia.
  - apply Forall_singleton. lia.
Qed.

Lemma exec_wf (protocol : Protocol) (o : op) (w : World) :
  tracker_wf w -> tracker_wf (exec protocol o w).
Proof.
  intros Hwf.
  destruct o; try (eapply steady_wf; [apply exec_steady; intros; discriminate|done]).
  simpl. rewrite stream_unfold; simpl.
  eapply steady_wf.
  - apply same_tracker_steady. apply (frame_send same_tracker).
  - by apply track_wf.
Qed.

(** Every reference the tracker of a hub ever holds points into the store. *)
Theorem tracker_wf_reachable (protocol : Protocol) (ops : list op)
    (u : string) (now : Z) :
  tracker_wf (run protocol ops (new_world u now)).
Proof.
  assert (H : forall w, tracker_wf w -> tracker_wf (run protocol ops w)).
  { induction ops as [|o ops IH]; intros w Hwf; [done|].
    simpl. apply IH. by apply exec_wf. }
  apply H. constructor.
Qed.

(** A [Completion] for a handler that was never subscribed: the call of
    its [None] callback raises, and the handler stays tracked. *)
Theorem completion_unsubscribed_raises (id : string) (res : pyval)
    (err : option string) (w : World) (r : nat) (rest : list nat) :
  tracked id w = r :: rest ->
  complete_callback (deref w r) = PyNone ->
  dispatch_message (CompletionMessage id res err) w =
  (Raise (not_callable PyNone), w).
Proof.
  intros Ht Hc. cbn [dispatch_message]. unfold bind at 1.
  unfold fired_stream_handlers. fold (tracked id w). rewrite Ht.
  cbn [for_each]. unfold bind, attr. by rewrite Hc.
Qed.

Lemma completion_unsubscribed_raises_witness :
  dispatch_message sample_completion unsubscribed_world =
  (Raise (TypeError "'NoneType' object is not callable"), unsubscribed_world)
  /\ stream_handlers (hub unsubscribed_world) = [0%nat].
Proof.
  split; [|reflexivity].
  apply (completion_unsubscribed_raises "uuid-1" PyNone None
           unsubscribed_world 0 []); vm_compute; reflexivity.
Defined.

(** ** The handshake *)

Lemma on_message_before_handshake (protocol : Protocol) (raw_message : string)
    (now : Z) (w : World) :
  handshake_received (hub w) = false ->
  on_message protocol raw_message now w =
  evaluate_handshake protocol raw_message (with_hub (touch now) w).
Proof.
  intros Hr. unfold on_message, bind, update, self; simpl. by rewrite Hr.
Qed.

Lemma handshake_accepted (protocol : Protocol) (raw_message : string)
    (w : World) (r : ReconnectionHandler) :
  accepted (decode_handshake protocol raw_message) ->
  reconnection_handler (hub w) = Some r ->
  evaluate_handshake protocol raw_message w =
  (Ok tt,
   with_hub (fun h => set_reconnection_handler (Some (set_reconnecting false r))
                        (set_connection_alive true
                           (set_handshake_received true h))) w).
Proof.
  intros Hacc Hr. unfold evaluate_handshake.
  assert (bool_decide (error (decode_handshake protocol raw_message) = None)
          || bool_decide (error (decode_handshake protocol raw_message) = Some "")
          = true) as ->.
  { destruct Hacc as [-> | ->]; done. }
  unfold bind, update, self; simpl. by rewrite Hr.
Qed.

Lemma handshake_rejected (protocol : Protocol) (raw_message : string)
    (w : World) (err : string) :
  error (decode_handshake protocol raw_message) = Some err ->
  err <> "" ->
  evaluate_handshake protocol raw_message w =
  (Raise (ValueError ("Handshake error " +:+ err)),
   add_trace [Log ERROR err] w).
Proof.
  intros He Hne. unfold evaluate_handshake. rewrite He.
  rewrite bool_decide_false by done.
  rewrite bool_decide_false by congruence.
  reflexivity.
Qed.

(** The handshake on a hub with a reconnection handler. *)
Theorem handshake_with_policy (protocol : Protocol) (raw_message : string)
    (now : Z) (w : World) (r : ReconnectionHandler) :
  handshake_received (hub w) = false ->
  reconnection_handler (hub w) = Some r ->
  (accepted (decode_handshake protocol raw_message) ->
   exists w',
     on_message protocol raw_message now w = (Ok tt, w') /\
     handshake_received (hub w') = true /\
     connection_alive (hub w') = true /\
     reconnection_handler (hub w') = Some (set_reconnecting false r) /\
     trace w' = trace w) /\
  (forall err,
     error (decode_handshake protocol raw_message) = Some err -> err <> "" ->
     on_message protocol raw_message now w =
     (Raise (ValueError ("Handshake error " +:+ err)),
      add_trace [Log ERROR err] (with_hub (touch now) w))).
Proof.
  intros Hhs Hr. split.
  - intros Hacc. rewrite on_message_before_handshake by done.
    rewrite (handshake_accepted protocol raw_message _ r); [|done|].
    + eexists. split; [reflexivity|]. done.
    + simpl. by destruct (hub w).
  - intros err He Hne. rewrite on_message_before_handshake by done.
    by apply handshake_rejected.
Qed.

Lemma handshake_with_policy_witness :
  handshake_received
    (hub (snd (on_message (fixed_protocol (Some "") [sample_invocation]) "{}" 1
                 (with_hub (set_handshake_received false) policy_world))))
  = true.
Proof.
  destruct (proj1 (handshake_with_policy
                     (fixed_protocol (Some "") [sample_invocation]) "{}" 1
                     (with_hub (set_handshake_received false) policy_world)
                     _ eq_refl eq_refl))
    as (w' & E & H & _).
  - right. reflexivity.
  - rewrite E. exact H.
Defined.

(** C4. The claim holds on a hub with a reconnection handler
    ([handshake_with_policy]); on a hub without one,
    which is how [__init__] leaves it, it does not.  There a handshake
    response without error sets [handshake_received] and
    [connection_alive], and then the write of the [reconnecting] flag
    raises [AttributeError]: the evaluator, and [on_message] with it, end
    with an exception although the handshake was accepted. *)
Theorem handshake_without_policy_raises (protocol : Protocol)
    (raw_message : string) (now : Z) (w : World) :
  handshake_received (hub w) = false ->
  accepted (decode_handshake protocol raw_message) ->
  reconnection_handler (hub w) = None ->
  on_message protocol raw_message now w =
  (Raise none_attribute_error,
   with_hub (fun h => set_connection_alive true
                        (set_handshake_received true (touch now h))) w).
Proof.
  intros Hhs Hacc Hr. rewrite on_message_before_handshake by done.
  unfold evaluate_handshake.
  assert (bool_decide (error (decode_handshake protocol raw_message) = None)
          || bool_decide (error (decode_handshake protocol raw_message) = Some "")
          = true) as ->.
  { destruct Hacc as [-> | ->]; done. }
  unfold bind, update, self; simpl. by rewrite Hr.
Qed.

Lemma handshake_without_policy_raises_witness :
  on_message (fixed_protocol (Some "") [sample_invocation]) "{}" 1
    (new_world "ws://localhost/chathub" 0)
  = (Raise none_attribute_error,
     with_hub (fun h => set_connection_alive true
                          (set_handshake_received true (touch 1 h)))
       (new_world "ws://localhost/chathub" 0)).
Proof.
  apply handshake_without_policy_raises.
  - reflexivity.
  - right. reflexivity.
  - reflexivity.
Defined.

(** C7. The claim does not hold.  The [raw] and the [exponential] branch
    of [configure_reconnection] run the same constructor call: in any
    namespace the two selections have the same outcome and leave the same
    hub, so no schedule can tell them apart.  In the namespace of the
    module, which binds [RawReconnectionHandler] and
    [ExponentialReconnectionHandler] and not [ReconnectionHandler], both
    raise [NameError] once the keep-alive interval is set, and install no
    handler. *)
Theorem configure_reconnection_same_handler (ns : list string)
    (keep_alive reconnect_interval : Z) (attemps : option Z) (w : World) :
  configure_reconnection_in ns "exponential" keep_alive reconnect_interval attemps w
  = configure_reconnection_in ns "raw" keep_alive reconnect_interval attemps w
  /\
  configure_reconnection "exponential" keep_alive reconnect_interval attemps w
  = (Raise (NameError "ReconnectionHandler"),
     with_hub (fun h => set_connection_checker
                 (set_keep_alive_interval keep_alive (connection_checker h)) h) w)
  /\
  configure_reconnection "raw" keep_alive reconnect_interval attemps w
  = (Raise (NameError "ReconnectionHandler"),
     with_hub (fun h => set_connection_checker
                 (set_keep_alive_interval keep_alive (connection_checker h)) h) w).
Proof.
  split; [|split]; try reflexivity.
  unfold configure_reconnection_in, bind, update, ReconnectionType_getitem; simpl.
  unfold instantiate. destruct (bool_decide _); reflexivity.
Qed.

(** ** [subscribe] and the builder's [send] *)

Lemma deref_store_world (r : nat) (f : StreamHandler -> StreamHandler)
    (w : World) :
  (r < length (heap w))%nat -> deref (store_world r f w) r = f (deref w r).
Proof.
  intros Hr. unfold deref, store_world; simpl.
  rewrite !nth_lookup, list_lookup_alter_eq.
  destruct (lookup_lt_is_Some_2 (heap w) r Hr) as [o Ho]. by rewrite Ho.
Qed.

(** C8 as stated fails: a subscription object whose [next] is [None]
    is accepted and [None] is stored; one without [complete] fails with
    [KeyError], not with the error of the [None] check. *)
Lemma subscribe_accepts_none_callback :
  fst (subscribe 0 (Some none_callbacks) unsubscribed_world) = Ok tt /\
  next_callback (deref (snd (subscribe 0 (Some none_callbacks) unsubscribed_world)) 0)
    = PyNone /\
  fst (subscribe 0 (Some partial_callbacks) unsubscribed_world)
    = Raise (KeyError "complete").
Proof. vm_compute. done. Qed.

(** C8, amended.  [subscribe] fails with its invalid-argument error
    exactly when the subscription object is [None].  A dict without one of
    the keys [next], [complete], [error] fails with the [KeyError] of the
    first missing key, after the callbacks before it were stored.  When
    the three keys are present their values are stored on the handler,
    [None] included, and its event and invocation id stay. *)
Theorem subscribe_checks_the_object (r : nat) (w : World)
    (d : gmap string pyval) :
  subscribe r None w = (Raise subscribe_error, w) /\
  (d !! "next" = None ->
   subscribe r (Some d) w = (Raise (KeyError "next"), w)) /\
  (forall n, d !! "next" = Some n -> d !! "complete" = None ->
   subscribe r (Some d) w =
   (Raise (KeyError "complete"), store_world r (set_next_callback n) w)) /\
  (forall n c, d !! "next" = Some n -> d !! "complete" = Some c ->
   d !! "error" = None ->
   subscribe r (Some d) w =
   (Raise (KeyError "error"),
    store_world r (set_complete_callback c)
      (store_world r (set_next_callback n) w))) /\
  (forall n c e, d !! "next" = Some n -> d !! "complete" = Some c ->
   d !! "error" = Some e ->
   subscribe r (Some d) w = (Ok tt, store_world r (subscribed n c e) w) /\
   ((r < length (heap w))%nat ->
    let o := deref (store_world r (subscribed n c e) w) r in
    next_callback o = n /\ complete_callback o = c /\ error_callback o = e /\
    event o = event (deref w r) /\
    invocation_id o = invocation_id (deref w r))).
Proof.
  split; [done|]. split; [|split; [|split]].
  - intros Hn. unfold subscribe, getitem, bind. by rewrite Hn.
  - intros n Hn Hc. unfold subscribe, getitem, bind. by rewrite Hn, Hc.
  - intros n c Hn Hc He. unfold subscribe, getitem, bind.
    by rewrite Hn, Hc, He.
  - intros n c e Hn Hc He. split.
    + by apply subscribe_ok.
    + intros Hr o. unfold o. by rewrite deref_store_world.
Qed.

Lemma subscribe_checks_the_object_witness :
  subscribe 0 (Some sample_callbacks) unsubscribed_world
  = (Ok tt,
     store_world 0 (subscribed (PyFun 1) (PyFun 2) (PyFun 3)) unsubscribed_world).
Proof.
  apply (subscribe_checks_the_object 0 unsubscribed_world sample_callbacks);
    vm_compute; reflexivity.
Defined.

(** C9. The builder's [send] with [arguments] that are not a list
    raises its invalid-argument error and leaves the builder, its hub and
    the trace as they are: nothing is encoded or written.  With a list it
    calls the hub's [send] with an [Invocation] carrying the generated id,
    the method and the arguments; on a built and started hub whose
    transport takes the frame, that message, encoded, is what is
    written. *)
Theorem builder_send_requires_list (protocol : Protocol) (method : string)
    (arguments : pyval) (uid : string) (now : Z) (io : option exn)
    (b : Builder.HubConnectionBuilder) :
  (Builder.is_list arguments = false ->
   Builder.send protocol method arguments uid now io b =
   (Raise (HubConnectionError "Arguments of a message must be a list"), b)) /\
  (Builder.is_list arguments = true ->
   Builder.send protocol method arguments uid now io b =
   Builder.on_hub "send"
     (send protocol (InvocationMessage [] uid method arguments) now io) b) /\
  (forall h app,
     Builder.is_list arguments = true ->
     Builder._hub b = Some h -> _ws h = Some app -> io = None ->
     exists b',
       Builder.send protocol method arguments uid now io b = (Ok tt, b') /\
       Builder.effects b' =
         Builder.effects b ++
         [TransportSend
            (encode protocol (InvocationMessage [] uid method arguments))]).
Proof.
  split; [|split].
  - intros Hl. unfold Builder.send. by rewrite Hl.
  - intros Hl. unfold Builder.send. by rewrite Hl.
  - intros h app Hl Hh Hws ->. unfold Builder.send, Builder.on_hub.
    rewrite Hl, Hh; simpl.
    rewrite (send_success protocol _ now _ app) by done.
    eexists. split; reflexivity.
Qed.

Lemma builder_send_requires_list_witness :
  Builder.send completion_protocol "SendMessage" (PyStr "hi") "uuid-2" 1 None
    built_builder
  = (Raise (HubConnectionError "Arguments of a message must be a list"),
     built_builder)
  /\ Builder.effects
       (snd (Builder.send completion_protocol "SendMessage"
               (PyList [PyStr "hi"]) "uuid-2" 1 None built_builder))
     = [TransportSend "frame"].
Proof.
  split.
  - by apply (builder_send_requires_list completion_protocol "SendMessage"
                (PyStr "hi") "uuid-2" 1 None built_builder).
  - destruct (proj2 (proj2 (builder_send_requires_list completion_protocol
                "SendMessage" (PyList [PyStr "hi"]) "uuid-2" 1 None
                built_builder)) (hub policy_world) _ eq_refl eq_refl eq_refl
                eq_refl) as (b' & E & Heff).
    rewrite E. exact Heff.
Defined.

(** ** Frames of the hub *)

Section HubFrames.

Context (R : BaseHubConnection -> BaseHubConnection -> Prop) `{!PreOrder R}.

Lemma hub_frame_ret {A} (a : A) : hub_frame R (ret a).
Proof. intros w. reflexivity. Qed.

Lemma hub_frame_raise {A} (ex : exn) : hub_frame R (@raise A ex).
Proof. intros w. reflexivity. Qed.

Lemma hub_frame_self : hub_frame R self.
Proof. intros w. reflexivity. Qed.

Lemma hub_frame_emit (e : effect) : hub_frame R (emit e).
Proof. intros w. reflexivity. Qed.

Lemma hub_frame_attr {A} (r : ref) (f : StreamHandler -> A) :
  hub_frame R (attr r f).
Proof. intros w. reflexivity. Qed.

Lemma hub_frame_call (v : pyval) (arg : call_arg) : hub_frame R (call v arg).
Proof. intros w. destruct v; reflexivity. Qed.

Lemma hub_frame_store (r : ref) (f : StreamHandler -> StreamHandler) :
  hub_frame R (store r f).
Proof. intros w. reflexivity. Qed.

Lemma hub_frame_alloc (o : StreamHandler) : hub_frame R (alloc o).
Proof. intros w. reflexivity. Qed.

Lemma hub_frame_fired (id : string) : hub_frame R (fired_stream_handlers id).
Proof. intros w. reflexivity. Qed.

Lemma hub_frame_update (f : BaseHubConnection -> BaseHubConnection) :
  (forall h, R h (f h)) -> hub_frame R (update f).
Proof. intros Hf w. apply Hf. Qed.

Lemma hub_frame_unregister (id : string) :
  (forall h l, l `sublist_of` stream_handlers h -> R h (set_stream_handlers l h)) ->
  hub_frame R (unregister id).
Proof. intros Hf w. apply Hf. apply sublist_filter. Qed.

Lemma hub_frame_bind {A B} (m : M A) (k : A -> M B) :
  hub_frame R m -> (forall a, hub_frame R (k a)) -> hub_frame R (bind m k).
Proof.
  intros Hm Hk w. unfold bind. specialize (Hm w).
  destruct (m w) as [[a|ex] w1]; simpl in *; [|done].
  etrans; [exact Hm|apply Hk].
Qed.

Lemma hub_frame_try_except {A} (m : M A) (handler : exn -> M A) :
  hub_frame R m -> (forall ex, hub_frame R (handler ex)) ->
  hub_frame R (try_except m handler).
Proof.
  intros Hm Hh w. unfold try_except. specialize (Hm w).
  destruct (m w) as [[a|ex] w1]; simpl in *; [done|].
  etrans; [exact Hm|apply Hh].
Qed.

Lemma hub_frame_for_each {A} (xs : list A) (body : A -> M unit) :
  (forall x, hub_frame R (body x)) -> hub_frame R (for_each xs body).
Proof.
  intros Hb. induction xs as [|x xs IH]; simpl.
  - apply hub_frame_ret.
  - apply hub_frame_bind; [apply Hb|done].
Qed.

Lemma hub_frame_dispatch (ms : list Message) :
  (forall m, hub_frame R (dispatch_message m)) -> hub_frame R (dispatch ms).
Proof.
  intros Hm. induction ms as [|m ms IH]; simpl.
  - apply hub_frame_ret.
  - apply hub_frame_bind; [apply Hm|]. intros []; [done|apply hub_frame_ret].
Qed.

End HubFrames.

(** One step of a proof that [m] keeps [R]; [side] proves what [R] owes
    for a write to the hub. *)
Ltac hub_frame_step side :=
  match goal with
  | |- PreOrder _ => solve [typeclasses eauto | assumption]
  | |- forall _, hub_frame _ _ => intros ?
  | |- hub_frame _ (if ?b then _ else _) => destruct b
  | |- hub_frame _ (match ?x with _ => _ end) => destruct x
  | |- hub_frame _ (dispatch_message ?m) =>
      destruct m; unfold dispatch_message
  | |- hub_frame _ _ =>
      first
        [ apply hub_frame_ret | apply hub_frame_raise | apply hub_frame_self
        | apply hub_frame_emit | apply hub_frame_attr | apply hub_frame_call
        | apply hub_frame_store | apply hub_frame_alloc | apply hub_frame_fired
        | apply hub_frame_dispatch
        | apply hub_frame_update
        | apply hub_frame_unregister
        | apply hub_frame_bind
        | apply hub_frame_try_except
        | apply hub_frame_for_each ]
  | |- _ => solve [side]
  end.

Ltac hub_frame_auto side := repeat hub_frame_step side.

Lemma keeps_handshake_preorder : PreOrder keeps_handshake.
Proof. split; unfold keeps_handshake; [by intros h|intros h1 h2 h3; tauto]. Qed.

Lemma keeps_handlers_preorder : PreOrder keeps_handlers.
Proof.
  split; unfold keeps_handlers; [by intros h|].
  intros h1 h2 h3 ? ?. by etrans.
Qed.

Lemma keeps_checker_preorder : PreOrder keeps_checker.
Proof.
  split; unfold keeps_checker; [by intros h|].
  intros h1 h2 h3 ? ?. congruence.
Qed.

Lemma keeps_no_policy_preorder : PreOrder keeps_no_policy.
Proof.
  split; unfold keeps_no_policy; [by intros h|intros h1 h2 h3; tauto].
Qed.

Lemma dispatch_changes_preorder : PreOrder dispatch_changes.
Proof.
  split.
  - intros h. exists (stream_handlers h), (connection_alive h).
    split; [by destruct h|]. split; [reflexivity|done].
  - intros h1 h2 h3 (l & b & -> & Hl & Hb) (l' & b' & -> & Hl' & Hb').
    exists l', b'. split; [by destruct h1|]. destruct h1; simpl in *.
    split; [by etrans|]. tauto.
Qed.

#[local] Existing Instances keeps_handshake_preorder keeps_handlers_preorder
  keeps_checker_preorder keeps_no_policy_preorder dispatch_changes_preorder.

Ltac field_kept :=
  first [ by intros [] | by intros [] ? | by intros [] ? ? ].

Ltac unfold_methods :=
  unfold on_open, on_message, on_close, on_error, send, stream, subscribe,
    register_handler, configure_reconnection, configure_reconnection_in,
    start, stop, WebSocketApp_close, evaluate_handshake, ws_send, getitem,
    ReconnectionType_getitem, instantiate.

(** Turns [R (hub w) (hub (exec protocol o w))] into one frame goal for
    the method behind [o]. *)
Ltac exec_hub_frame R o :=
  destruct o; unfold exec;
  match goal with
  | |- forall w, R _ (hub (snd (?m w))) => change (hub_frame R m)
  end.

Lemma run_hub_frame (R : BaseHubConnection -> BaseHubConnection -> Prop)
    `{!PreOrder R} (protocol : Protocol) :
  (forall o w, R (hub w) (hub (exec protocol o w))) ->
  forall ops w, R (hub w) (hub (run protocol ops w)).
Proof.
  intros Hexec ops. induction ops as [|o ops IH]; intros w; simpl.
  - reflexivity.
  - etrans; [apply Hexec|apply IH].
Qed.

(** *** The handshake flag is never cleared *)

Lemma exec_keeps_handshake (protocol : Protocol) (o : op) :
  forall w, keeps_handshake (hub w) (hub (exec protocol o w)).
Proof.
  exec_hub_frame keeps_handshake o; unfold_methods;
    hub_frame_auto ltac:(unfold keeps_handshake; field_kept).
Qed.

(** Once the handshake has been received it stays received, whatever
    happens to the hub, [stop] and [start] included: every later frame is
    decoded and dispatched, none is evaluated as a handshake response. *)
Theorem handshake_never_cleared (protocol : Protocol) (ops : list op)
    (w : World) :
  handshake_received (hub w) = true ->
  handshake_received (hub (run protocol ops w)) = true /\
  forall raw_message now,
    on_message protocol raw_message now (run protocol ops w) =
    dispatch (parse_messages protocol raw_message)
      (with_hub (touch now) (run protocol ops w)).
Proof.
  intros Hr.
  assert (H : handshake_received (hub (run protocol ops w)) = true).
  { by apply (run_hub_frame keeps_handshake protocol
                (exec_keeps_handshake protocol)). }
  split; [done|]. intros raw_message now.
  by apply on_message_after_handshake.
Qed.

Lemma handshake_never_cleared_witness :
  handshake_received
    (hub (run completion_protocol [Stop; Start; OnOpen 3 None] alive_world))
  = true.
Proof.
  apply (handshake_never_cleared completion_protocol
           [Stop; Start; OnOpen 3 None] alive_world).
  reflexivity.
Defined.


(** *** Registered handlers stay registered *)

Lemma exec_keeps_handlers (protocol : Protocol) (o : op) :
  forall w, keeps_handlers (hub w) (hub (exec protocol o w)).
Proof.
  exec_hub_frame keeps_handlers o; unfold_methods;
    hub_frame_auto ltac:(unfold keeps_handlers;
                         first [field_kept
                               | intros []; simpl; by apply prefix_app_r]).
Qed.

(** The registry only grows, at its end: after any operations the
    handlers registered before are still there, in their order, before
    the ones registered since. *)
Theorem handlers_never_removed (protocol : Protocol) (ops : list op)
    (w : World) :
  handlers (hub w) `prefix_of` handlers (hub (run protocol ops w)).
Proof.
  apply (run_hub_frame keeps_handlers protocol (exec_keeps_handlers protocol)).
Qed.

(** *** No reconnection handler is ever installed *)

Lemma evaluate_handshake_keeps_no_policy (protocol : Protocol)
    (message : string) :
  hub_frame keeps_no_policy (evaluate_handshake protocol message).
Proof.
  intros w Hnone. unfold evaluate_handshake.
  destruct (_ || _); unfold bind, update, self, emit, raise; simpl.
  - by rewrite Hnone.
  - done.
Qed.

Lemma send_keeps_no_policy (protocol : Protocol) (message : Message)
    (now : Z) (io : option exn) :
  hub_frame keeps_no_policy (send protocol message now io).
Proof.
  intros w Hnone.
  unfold send, try_except, ws_send, bind, self, raise.
  destruct (_ws (hub w)); [destruct io as [ex|]|]; simpl; try done;
    try (destruct (is_connection_closed ex); [|done]);
    cbn [hub]; by rewrite Hnone.
Qed.

(** [configure_reconnection] sets the keep-alive interval and raises: its
    constructor call names a class the module does not bind, and any other
    type is no member of the enum. *)
Lemma configure_reconnection_raises (reconnection_type : string)
    (keep_alive reconnect_interval : Z) (attemps : option Z) (w : World) :
  configure_reconnection reconnection_type keep_alive reconnect_interval
    attemps w =
  (Raise (if bool_decide (reconnection_type = "raw")
             || bool_decide (reconnection_type = "exponential")
          then NameError "ReconnectionHandler"
          else KeyError reconnection_type),
   with_hub (fun h => set_connection_checker
               (set_keep_alive_interval keep_alive (connection_checker h)) h) w).
Proof.
  unfold configure_reconnection, configure_reconnection_in, bind, update,
    ReconnectionType_getitem.
  destruct (bool_decide (reconnection_type = "raw")); [reflexivity|].
  destruct (bool_decide (reconnection_type = "exponential")); reflexivity.
Qed.

Lemma configure_reconnection_keeps_no_policy (t : string) (k i : Z)
    (a : option Z) :
  hub_frame keeps_no_policy (configure_reconnection t k i a).
Proof.
  intros w Hnone. rewrite configure_reconnection_raises. simpl.
  by destruct (hub w).
Qed.

Lemma evaluate_handshake_without_policy (protocol : Protocol)
    (message : string) (w : World) :
  accepted (decode_handshake protocol message) ->
  reconnection_handler (hub w) = None ->
  fst (evaluate_handshake protocol message w) = Raise none_attribute_error.
Proof.
  intros Hacc Hnone. unfold evaluate_handshake.
  assert (bool_decide (error (decode_handshake protocol message) = None)
          || bool_decide (error (decode_handshake protocol message) = Some "")
          = true) as ->.
  { destruct Hacc as [-> | ->]; done. }
  unfold bind, update, self; simpl. by rewrite Hnone.
Qed.

Lemma exec_keeps_no_policy (protocol : Protocol) (o : op) :
  forall w, keeps_no_policy (hub w) (hub (exec protocol o w)).
Proof.
  exec_hub_frame keeps_no_policy o;
    unfold on_open, on_message, on_close, on_error, stream, subscribe,
      register_handler, start, stop, getitem;
    repeat first
      [ apply evaluate_handshake_keeps_no_policy
      | apply send_keeps_no_policy
      | apply configure_reconnection_keeps_no_policy
      | hub_frame_step ltac:(unfold keeps_no_policy; field_kept) ].
Qed.

(** A hub built by [__init__] never gets a reconnection handler, whatever
    is done to it: [configure_reconnection] raises before it installs one.
    So no [send] ever swallows an error (every failed write on a started
    hub raises to the caller and starts no reconnection), and a handshake
    response without error always ends in the [AttributeError] of the
    missing handler. *)
Theorem no_policy_reachable (protocol : Protocol) (ops : list op)
    (u : string) (t0 : Z) :
  let w := run protocol ops (new_world u t0) in
  reconnection_handler (hub w) = None /\
  (forall message now ex app,
     _ws (hub w) = Some app ->
     send protocol message now (Some ex) w = (Raise ex, w)) /\
  (forall raw_message now,
     handshake_received (hub w) = false ->
     accepted (decode_handshake protocol raw_message) ->
     fst (on_message protocol raw_message now w) = Raise none_attribute_error).
Proof.
  intros w.
  assert (Hnone : reconnection_handler (hub w) = None).
  { by apply (run_hub_frame keeps_no_policy protocol
                (exec_keeps_no_policy protocol) ops (new_world u t0)). }
  split; [done|]. split.
  - intros message now ex app Hws. by apply (send_raises _ _ _ _ _ app).
  - intros raw_message now Hhs Hacc.
    rewrite on_message_before_handshake by done.
    apply evaluate_handshake_without_policy; [done|].
    simpl. by destruct (hub w).
Qed.

(** ** Frames of the trace *)

Section TraceFrames.

Context (P : effect -> Prop).

Lemma trace_frame_same {A} (m : M A) :
  (forall w, trace (snd (m w)) = trace w) -> trace_frame P m.
Proof. intros H w. exists []. by rewrite H, app_nil_r. Qed.

Lemma trace_frame_ret {A} (a : A) : trace_frame P (ret a).
Proof. by apply trace_frame_same. Qed.

Lemma trace_frame_raise {A} (ex : exn) : trace_frame P (@raise A ex).
Proof. by apply trace_frame_same. Qed.

Lemma trace_frame_self : trace_frame P self.
Proof. by apply trace_frame_same. Qed.

Lemma trace_frame_update (f : BaseHubConnection -> BaseHubConnection) :
  trace_frame P (update f).
Proof. by apply trace_frame_same. Qed.

Lemma trace_frame_attr {A} (r : ref) (f : StreamHandler -> A) :
  trace_frame P (attr r f).
Proof. by apply trace_frame_same. Qed.

Lemma trace_frame_store (r : ref) (f : StreamHandler -> StreamHandler) :
  trace_frame P (store r f).
Proof. by apply trace_frame_same. Qed.

Lemma trace_frame_alloc (o : StreamHandler) : trace_frame P (alloc o).
Proof. by apply trace_frame_same. Qed.

Lemma trace_frame_fired (id : string) : trace_frame P (fired_stream_handlers id).
Proof. by apply trace_frame_same. Qed.

Lemma trace_frame_unregister (id : string) : trace_frame P (unregister id).
Proof. by apply trace_frame_same. Qed.

Lemma trace_frame_emit (e : effect) : P e -> trace_frame P (emit e).
Proof. intros He w. exists [e]. split; [done|]. by constructor. Qed.

Lemma trace_frame_call (v : pyval) (arg : call_arg) :
  (forall f, P (Invoke f arg)) -> trace_frame P (call v arg).
Proof.
  intros Hp. destruct v; first [apply trace_frame_raise | apply trace_frame_emit, Hp].
Qed.

Lemma trace_frame_bind {A B} (m : M A) (k : A -> M B) :
  trace_frame P m -> (forall a, trace_frame P (k a)) -> trace_frame P (bind m k).
Proof.
  intros Hm Hk w. unfold bind. destruct (Hm w) as (es & Hes & HP).
  destruct (m w) as [[a|ex] w1]; simpl in *; [|by exists es].
  destruct (Hk a w1) as (es' & Hes' & HP').
  exists (es ++ es'). split; [by rewrite Hes', Hes, app_assoc|].
  by apply Forall_app.
Qed.

Lemma trace_frame_try_except {A} (m : M A) (handler : exn -> M A) :
  trace_frame P m -> (forall ex, trace_frame P (handler ex)) ->
  trace_frame P (try_except m handler).
Proof.
  intros Hm Hh w. unfold try_except. destruct (Hm w) as (es & Hes & HP).
  destruct (m w) as [[a|ex] w1]; simpl in *; [by exists es|].
  destruct (Hh ex w1) as (es' & Hes' & HP').
  exists (es ++ es'). split; [by rewrite Hes', Hes, app_assoc|].
  by apply Forall_app.
Qed.

Lemma trace_frame_for_each {A} (xs : list A) (body : A -> M unit) :
  (forall x, trace_frame P (body x)) -> trace_frame P (for_each xs body).
Proof.
  intros Hb. induction xs as [|x xs IH]; simpl.
  - apply trace_frame_ret.
  - apply trace_frame_bind; [apply Hb|done].
Qed.

Lemma trace_frame_dispatch (ms : list Message) :
  (forall m, trace_frame P (dispatch_message m)) -> trace_frame P (dispatch ms).
Proof.
  intros Hm. induction ms as [|m ms IH]; simpl.
  - apply trace_frame_ret.
  - apply trace_frame_bind; [apply Hm|]. intros []; [done|apply trace_frame_ret].
Qed.

End TraceFrames.

Ltac trace_frame_step :=
  match goal with
  | |- forall _, trace_frame _ _ => intros ?
  | |- trace_frame _ (if ?b then _ else _) => destruct b
  | |- trace_frame _ (match ?x with _ => _ end) => destruct x
  | |- trace_frame _ (dispatch_message ?m) =>
      destruct m; unfold dispatch_message
  | |- trace_frame _ _ =>
      first
        [ apply trace_frame_ret | apply trace_frame_raise
        | apply trace_frame_self | apply trace_frame_update
        | apply trace_frame_attr | apply trace_frame_store
        | apply trace_frame_alloc | apply trace_frame_fired
        | apply trace_frame_unregister
        | apply trace_frame_dispatch
        | apply trace_frame_emit; exact I
        | apply trace_frame_call; intros ?; exact I
        | apply trace_frame_bind
        | apply trace_frame_try_except
        | apply trace_frame_for_each ]
  end.

Ltac trace_frame_auto := repeat trace_frame_step.

(** *** What the dispatch loop leaves alone *)

Lemma dispatch_hub_changes (ms : list Message) :
  hub_frame dispatch_changes (dispatch ms).
Proof.
  hub_frame_auto ltac:(first
    [ intros h; exists (stream_handlers h), false;
      split; [by destruct h|]; split; [reflexivity|done]
    | intros h l Hl; exists l, (connection_alive h);
      split; [by destruct h|]; split; [done|done] ]).
Qed.

Lemma heap_kept_stable : Stable (fun w w' => heap w' = heap w).
Proof.
  split; [split|..]; try done. intros w1 w2 w3 ? ?. congruence.
Qed.

Lemma dispatch_keeps_heap (ms : list Message) (w : World) :
  heap (snd (dispatch ms w)) = heap w.
Proof.
  pose proof heap_kept_stable as Hs. revert w.
  change (frame (fun w w' => heap w' = heap w) (dispatch ms)).
  induction ms as [|m ms IH]; simpl.
  - frame_auto.
  - apply frame_bind; [done| |by intros []].
    destruct m; unfold dispatch_message;
      repeat first [ frame_step
                   | match goal with
                     | |- frame _ (unregister _) => by intros w
                     end ].
Qed.

Lemma dispatch_trace_passive (ms : list Message) :
  trace_frame passive (dispatch ms).
Proof. unfold close_effect, warn_unhandled_event, warn_unhandled_stream. trace_frame_auto. Qed.

(** While a batch is dispatched the hub changes in two places at most:
    tracked handlers may leave the tracker and the alive flag may be
    cleared (never set).  The registry, the transport, the reconnection
    handler, the handshake flag and the checker stay as they are, the
    store is not written, and the only effects are log lines and calls of
    callbacks: nothing is sent, opened or closed. *)
Theorem dispatch_footprint (ms : list Message) (w : World) :
  let w' := snd (dispatch ms w) in
  handlers (hub w') = handlers (hub w) /\
  _ws (hub w') = _ws (hub w) /\
  reconnection_handler (hub w') = reconnection_handler (hub w) /\
  handshake_received (hub w') = handshake_received (hub w) /\
  connection_checker (hub w') = connection_checker (hub w) /\
  url (hub w') = url (hub w) /\
  headers (hub w') = headers (hub w) /\
  stream_handlers (hub w') `sublist_of` stream_handlers (hub w) /\
  (connection_alive (hub w') = true -> connection_alive (hub w) = true) /\
  heap w' = heap w /\
  exists es, trace w' = trace w ++ es /\ Forall passive es.
Proof.
  intros w'.
  destruct (dispatch_hub_changes ms w) as (l & b & Hh & Hl & Hb).
  fold w' in Hh. rewrite Hh. destruct (hub w); simpl in *.
  repeat (split; [done|]).
  split; [apply dispatch_keeps_heap|apply dispatch_trace_passive].
Qed.

(** *** Batches over subscribed handlers *)

Lemma callbacks_exist (fld : StreamHandler -> pyval) (refs : list nat)
    (w : World) :
  Forall (fun r => callable (fld (deref w r))) refs ->
  exists cbs, Forall2 (fun r f => fld (deref w r) = PyFun f) refs cbs.
Proof.
  induction 1 as [|r refs [f Hf] _ [cbs IH]].
  - exists []. constructor.
  - exists (f :: cbs). by constructor.
Qed.

Lemma stream_item_matched (id : string) (item : pyval) (w : World)
    (cbs : list nat) :
  tracked id w <> [] ->
  Forall2 (fun r f => next_callback (deref w r) = PyFun f) (tracked id w) cbs ->
  dispatch_message (StreamItemMessage id item) w =
  (Ok Next, add_trace (map (fun f => Invoke f (ArgValue item)) cbs) w).
Proof.
  intros Hne Hcbs. cbn [dispatch_message]. unfold bind at 1.
  unfold fired_stream_handlers. fold (tracked id w).
  rewrite bool_decide_false by (by destruct (tracked id w)).
  unfold bind at 1, ret at 1. unfold bind at 1.
  by rewrite (for_each_call _ _ _ cbs).
Qed.

Lemma all_subscribed_tracked (id : string) (w : World) :
  all_subscribed w ->
  Forall (fun r => callable (next_callback (deref w r)) /\
                   callable (complete_callback (deref w r)) /\
                   callable (error_callback (deref w r))) (tracked id w).
Proof.
  intros Hs. apply Forall_forall. intros r Hr.
  apply list_elem_of_filter in Hr as [_ Hr].
  eapply Forall_forall in Hs; done.
Qed.

Lemma subscribed_message_ok (m : Message) (w : World) :
  all_subscribed w -> exists f w', dispatch_message m w = (Ok f, w').
Proof.
  intros Hs. pose proof (all_subscribed_tracked) as Ht.
  destruct m as [|hd id t args|hd id t args|id item|id res err| |e|id|id];
    try (eexists _, _; reflexivity).
  - eexists _, _. apply invocation_dispatch.
  - destruct (callbacks_exist next_callback (tracked id w) w) as [cbs Hcbs].
    { eapply Forall_impl; [apply (Ht id w Hs)|]. simpl. tauto. }
    destruct (tracked id w) eqn:E.
    + eexists _, _. by apply stream_item_unmatched.
    + eexists _, _. apply (stream_item_matched id item w cbs); by rewrite E.
  - destruct (callbacks_exist complete_callback (tracked id w) w) as [cbs Hcbs].
    { eapply Forall_impl; [apply (Ht id w Hs)|]. simpl. tauto. }
    eexists _, _. by apply (completion_matched id res err w cbs).
  - destruct (callbacks_exist error_callback (tracked id w) w) as [cbs Hcbs].
    { eapply Forall_impl; [apply (Ht id w Hs)|]. simpl. tauto. }
    destruct (tracked id w) eqn:E.
    + eexists _, _. by apply cancel_unmatched.
    + eexists _, _. apply (cancel_matched id w cbs); by rewrite E.
Qed.

Lemma snd_dispatch_single (m : Message) (w : World) :
  snd (dispatch [m] w) = snd (dispatch_message m w).
Proof.
  rewrite dispatch_cons. by destruct (dispatch_message m w) as [[[]|] ?].
Qed.

Lemma all_subscribed_kept (w w' : World) :
  heap w' = heap w ->
  stream_handlers (hub w') `sublist_of` stream_handlers (hub w) ->
  all_subscribed w -> all_subscribed w'.
Proof.
  intros Hh Hl Hs. unfold all_subscribed, deref in *. rewrite Hh.
  apply Forall_forall. intros r Hr.
  eapply Forall_forall in Hs; [done|]. by eapply sublist_subseteq.
Qed.

(** When every tracked handler has been subscribed with three callables,
    the dispatch loop raises nothing, whatever the batch: every message is
    dispatched, up to the first [Close]. *)
Theorem subscribed_batch_never_raises (protocol : Protocol)
    (ms : list Message) (w : World) :
  all_subscribed w ->
  fst (dispatch ms w) = Ok tt /\
  all_subscribed (snd (dispatch ms w)) /\
  (handshake_received (hub w) = true ->
   forall raw_message now,
     fst (on_message protocol raw_message now w) = Ok tt).
Proof.
  assert (H : forall ms w, all_subscribed w ->
            fst (dispatch ms w) = Ok tt /\ all_subscribed (snd (dispatch ms w))).
  { clear. induction ms as [|m ms IH]; intros w Hs; [done|].
    rewrite dispatch_cons.
    destruct (subscribed_message_ok m w Hs) as (f & w' & E).
    assert (Hs' : all_subscribed w').
    { destruct (dispatch_footprint [m] w)
        as (_ & _ & _ & _ & _ & _ & _ & Hl & _ & Hh & _).
      rewrite snd_dispatch_single, E in Hl, Hh. by eapply all_subscribed_kept. }
    rewrite E. destruct f; [by apply IH|done]. }
  intros Hs. split; [by apply H|]. split; [by apply H|].
  intros Hr raw_message now. rewrite on_message_after_handshake by done.
  apply H. unfold all_subscribed in *. exact Hs.
Qed.

Lemma subscribed_batch_never_raises_witness :
  fst (dispatch [StreamItemMessage "uuid-1" (PyInt 1); PingMessage;
                 CancelInvocationMessage "uuid-1";
                 CancelInvocationMessage "uuid-1"] streaming_world)
  = Ok tt.
Proof.
  apply (subscribed_batch_never_raises completion_protocol).
  repeat constructor; eexists; vm_compute; reflexivity.
Defined.


(** *** A stream from its items to its completion *)

Lemma stream_items_dispatch (id : string) (items : list pyval) (w : World)
    (nexts : list nat) (rest : list Message) :
  tracked id w <> [] ->
  Forall2 (fun r f => next_callback (deref w r) = PyFun f) (tracked id w) nexts ->
  dispatch (map (StreamItemMessage id) items ++ rest) w =
  dispatch rest
    (add_trace (flat_map (fun item => map (fun f => Invoke f (ArgValue item)) nexts)
                         items) w).
Proof.
  intros Hne Hcbs. revert w Hne Hcbs.
  induction items as [|item items IH]; intros w Hne Hcbs.
  - simpl. by rewrite add_trace_nil.
  - cbn [map flat_map app]. rewrite dispatch_cons.
    rewrite (stream_item_matched id item w nexts) by done.
    rewrite (IH (add_trace _ w)) by done.
    by rewrite add_trace_app.
Qed.

(** The items of a stream reach the next callback of its handler one by
    one, in the order of the batch, and the handler stays tracked; the
    [Completion] that follows calls the complete callback and removes
    it. *)
Theorem stream_items_then_completion (id : string) (items : list pyval)
    (res : pyval) (err : option string) (w : World)
    (nexts completes : list nat) :
  tracked id w <> [] ->
  Forall2 (fun r f => next_callback (deref w r) = PyFun f) (tracked id w) nexts ->
  Forall2 (fun r f => complete_callback (deref w r) = PyFun f)
    (tracked id w) completes ->
  let deliveries :=
    flat_map (fun item => map (fun f => Invoke f (ArgValue item)) nexts) items in
  dispatch (map (StreamItemMessage id) items) w =
    (Ok tt, add_trace deliveries w) /\
  dispatch (map (StreamItemMessage id) items ++ [CompletionMessage id res err]) w =
    (Ok tt,
     with_hub (set_stream_handlers
                 (filter (fun r => invocation_id (deref w r) <> id)
                         (stream_handlers (hub w))))
       (add_trace
          (deliveries ++
           map (fun f => Invoke f (ArgMessage (CompletionMessage id res err)))
               completes) w)).
Proof.
  intros Hne Hn Hc deliveries. split.
  - rewrite <- (app_nil_r (map _ items)).
    by rewrite (stream_items_dispatch id items w nexts []).
  - rewrite (stream_items_dispatch id items w nexts) by done.
    rewrite dispatch_cons.
    rewrite (completion_matched id res err _ completes) by done.
    simpl. by rewrite add_trace_app.
Qed.

Lemma stream_items_then_completion_witness :
  trace (snd (dispatch [StreamItemMessage "uuid-1" (PyInt 1);
                        StreamItemMessage "uuid-1" (PyInt 2);
                        sample_completion] streaming_world))
  = trace streaming_world ++
    [Invoke 1 (ArgValue (PyInt 1)); Invoke 1 (ArgValue (PyInt 2));
     Invoke 2 (ArgMessage sample_completion)].
Proof.
  assert (Ht : tracked "uuid-1" streaming_world = [0%nat])
    by (vm_compute; reflexivity).
  destruct (stream_items_then_completion "uuid-1" [PyInt 1; PyInt 2] PyNone None
              streaming_world [1%nat] [2%nat]) as [_ E].
  - by rewrite Ht.
  - rewrite Ht. constructor; [vm_compute; reflexivity|constructor].
  - rewrite Ht. constructor; [vm_compute; reflexivity|constructor].
  - unfold sample_completion. cbn [map app] in E. rewrite E. reflexivity.
Defined.

(** *** Handlers that were never subscribed *)

(** A [StreamItem] or a [CancelInvocation] for a tracked handler whose
    callback is not callable ([None], as [__init__] leaves it) raises
    [TypeError] at the first such handler; nothing changes, and for the
    cancellation the handlers stay tracked. *)
Theorem unsubscribed_notification_raises (id : string) (w : World)
    (r : nat) (rest : list nat) :
  tracked id w = r :: rest ->
  (forall item, ~ callable (next_callback (deref w r)) ->
     dispatch_message (StreamItemMessage id item) w =
     (Raise (not_callable (next_callback (deref w r))), w)) /\
  (~ callable (error_callback (deref w r)) ->
     dispatch_message (CancelInvocationMessage id) w =
     (Raise (not_callable (error_callback (deref w r))), w)).
Proof.
  intros Ht. split.
  - intros item Hc. cbn [dispatch_message]. unfold bind at 1.
    unfold fired_stream_handlers. fold (tracked id w). rewrite Ht.
    cbn [for_each length]. rewrite bool_decide_false by done.
    unfold bind, ret, attr.
    destruct (next_callback (deref w r)) eqn:E; try done.
    destruct Hc. by eexists.
  - intros Hc. cbn [dispatch_message]. unfold bind at 1.
    unfold fired_stream_handlers. fold (tracked id w). rewrite Ht.
    cbn [for_each length]. rewrite bool_decide_false by done.
    unfold bind, ret, attr.
    destruct (error_callback (deref w r)) eqn:E; try done.
    destruct Hc. by eexists.
Qed.

Lemma unsubscribed_notification_raises_witness :
  dispatch_message (CancelInvocationMessage "uuid-1") unsubscribed_world =
  (Raise (TypeError "'NoneType' object is not callable"), unsubscribed_world).
Proof.
  apply (proj2 (unsubscribed_notification_raises "uuid-1" unsubscribed_world
                  0 [] ltac:(vm_compute; reflexivity))).
  intros [f Hf]. vm_compute in Hf. discriminate.
Defined.

(** *** The liveness timestamp *)

Lemma evaluate_handshake_keeps_checker (protocol : Protocol) (message : string) :
  hub_frame keeps_checker (evaluate_handshake protocol message).
Proof.
  pose proof keeps_checker_preorder.
  unfold evaluate_handshake.
  hub_frame_auto ltac:(unfold keeps_checker; field_kept).
Qed.

Lemma dispatch_keeps_checker (ms : list Message) :
  hub_frame keeps_checker (dispatch ms).
Proof.
  pose proof keeps_checker_preorder.
  hub_frame_auto ltac:(unfold keeps_checker; field_kept).
Qed.

(** Every frame received sets the liveness timestamp to the clock,
    whatever becomes of the frame (handshake accepted or rejected, batch
    dispatched or cut short by an exception).  A [send] sets it exactly
    when the frame was written; a failed write leaves it alone, also when
    the error is swallowed and the hub reconnects. *)
Theorem liveness_timestamp (protocol : Protocol) (now : Z) (w : World) :
  (forall raw_message,
     last_message (connection_checker
       (hub (snd (on_message protocol raw_message now w)))) = now) /\
  (forall message io,
     last_message (connection_checker
       (hub (snd (send protocol message now io w)))) =
     match _ws (hub w), io with
     | Some _, None => now
     | _, _ => last_message (connection_checker (hub w))
     end).
Proof.
  split.
  - intros raw_message. unfold on_message, bind, update, self; simpl.
    set (w0 := with_hub (touch now) w).
    assert (Hw0 : last_message (connection_checker (hub w0)) = now)
      by (by destruct w as [[] ? ?]).
    destruct (negb _).
    + by rewrite (evaluate_handshake_keeps_checker protocol raw_message w0).
    + by rewrite (dispatch_keeps_checker _ w0).
  - intros message io.
    unfold send, try_except, ws_send, bind, self, raise.
    destruct (_ws (hub w)); [destruct io as [ex|]|]; simpl; try done;
      try (destruct (is_connection_closed ex); [|done]);
      cbn [hub]; destruct (reconnection_handler (hub w)) as [r|]; try done;
      destruct (reconnecting r); done.
Qed.

(** *** Before [start] *)

Lemma send_unstarted (protocol : Protocol) (message : Message) (now : Z)
    (io : option exn) (w : World) :
  _ws (hub w) = None ->
  send protocol message now io w =
  (Raise (AttributeError "'NoneType' object has no attribute 'send'"), w).
Proof.
  intros Hws. unfold send, try_except, ws_send, bind, self. by rewrite Hws.
Qed.

Lemma keeps_ws_preorder : PreOrder keeps_ws.
Proof.
  split; unfold keeps_ws; [by intros h|]. intros h1 h2 h3 ? ?. congruence.
Qed.

Lemma exec_before_start (protocol : Protocol) (o : op) (w : World) :
  o <> Start -> _ws (hub w) = None ->
  _ws (hub (exec protocol o w)) = None /\
  exists es, trace (exec protocol o w) = trace w ++ es /\ Forall no_write es.
Proof.
  pose proof keeps_ws_preorder.
  intros Ho Hws.
  assert (Hquiet : forall (m : M unit),
            hub_frame keeps_ws m -> trace_frame no_write m ->
            _ws (hub (snd (m w))) = None /\
            exists es, trace (snd (m w)) = trace w ++ es /\ Forall no_write es).
  { intros m Hh Ht. split; [by rewrite (Hh w)|apply Ht]. }
  destruct o; unfold exec; try done.
  - unfold on_open, bind, emit; simpl. rewrite send_unstarted by done.
    split; [done|]. eexists. split; [reflexivity|]. by repeat constructor.
  - apply Hquiet; unfold on_message, evaluate_handshake, touch.
    + hub_frame_auto ltac:(unfold keeps_ws; field_kept).
    + unfold none_attribute_error. trace_frame_auto.
  - apply Hquiet; unfold on_close; [hub_frame_auto idtac|trace_frame_auto].
  - apply Hquiet; unfold on_error; [hub_frame_auto idtac|trace_frame_auto].
  - rewrite send_unstarted by done. split; [done|].
    exists []. by rewrite app_nil_r.
  - rewrite stream_unfold. rewrite send_unstarted by done. simpl.
    split; [by destruct (hub w)|]. exists []. by rewrite app_nil_r.
  - apply Hquiet; unfold subscribe, getitem;
      [hub_frame_auto idtac|trace_frame_auto].
  - apply Hquiet; unfold register_handler;
      [hub_frame_auto ltac:(unfold keeps_ws; field_kept)|trace_frame_auto].
  - rewrite configure_reconnection_raises. simpl.
    split; [by destruct (hub w)|]. exists []. by rewrite app_nil_r.
  - apply Hquiet; unfold stop, WebSocketApp_close;
      [hub_frame_auto ltac:(unfold keeps_ws; field_kept)|trace_frame_auto].
Qed.

(** Until [start] is called the hub has no socket, and nothing is written
    or opened, whatever else is called.  In such a state [send] raises
    [AttributeError] and changes nothing; [on_open] writes its log line
    and raises the same error; [stream] raises it too, after it has
    created its [StreamHandler] and appended it to the tracker, where the
    handler stays. *)
Theorem nothing_written_before_start (protocol : Protocol) (ops : list op)
    (u : string) (t0 : Z) :
  Forall (fun o => o <> Start) ops ->
  let w := run protocol ops (new_world u t0) in
  let unstarted := AttributeError "'NoneType' object has no attribute 'send'" in
  _ws (hub w) = None /\ Forall no_write (trace w) /\
  (forall message now io,
     send protocol message now io w = (Raise unstarted, w)) /\
  (forall now io,
     on_open protocol now io w =
     (Raise unstarted, add_trace [Log INFO "-- web socket open --"] w)) /\
  (forall ev params uid now io,
     stream protocol ev params uid now io w =
     (Raise unstarted, track ev uid w)).
Proof.
  intros Hops.
  assert (H : forall w, _ws (hub w) = None -> Forall no_write (trace w) ->
            _ws (hub (run protocol ops w)) = None /\
            Forall no_write (trace (run protocol ops w))).
  { induction Hops as [|o ops Ho _ IH]; intros w Hws Htr; [done|].
    simpl. destruct (exec_before_start protocol o w Ho Hws)
      as (Hws' & es & Hes & Hnw).
    apply IH; [done|]. rewrite Hes. by apply Forall_app. }
  intros w unstarted.
  destruct (H (new_world u t0)) as [Hws Htr]; [done|constructor|].
  fold w in Hws, Htr.
  split; [done|]. split; [done|]. split; [|split].
  - intros message now io. by apply send_unstarted.
  - intros now io. unfold on_open, bind, emit.
    by rewrite send_unstarted.
  - intros ev params uid now io. unfold stream, bind, alloc, update.
    change (with_hub _ _) with (track ev uid w).
    rewrite send_unstarted; [done|]. simpl. exact Hws.
Qed.

Lemma nothing_written_before_start_witness :
  stream completion_protocol "Counter" PyNone "uuid-1" 3 None
    (run completion_protocol [OnOpen 1 None; Send PingMessage 2 None; Stop]
       (new_world "ws://localhost/chathub" 0))
  = (Raise (AttributeError "'NoneType' object has no attribute 'send'"),
     {| hub := set_stream_handlers [0%nat]
                 (BaseHubConnection_init "ws://localhost/chathub" 0);
        heap := [StreamHandler_init "Counter" "uuid-1"];
        trace := [Log INFO "-- web socket open --"; CheckerStop] |}).
Proof.
  destruct (nothing_written_before_start completion_protocol
              [OnOpen 1 None; Send PingMessage 2 None; Stop]
              "ws://localhost/chathub" 0) as (_ & _ & _ & _ & Hstream).
  { repeat constructor; discriminate. }
  rewrite Hstream. vm_compute. reflexivity.
Defined.

(** *** [start], [on_open] and [stop] *)

(** [start] followed by the transport's [on_open] opens the socket to the
    hub's url, starts the checker and writes one frame, the handshake
    request; the flags of the hub are not touched. *)
Theorem start_sends_handshake_request (protocol : Protocol) (now : Z)
    (w : World) :
  let w' := run protocol [Start; OnOpen now None] w in
  trace w' = trace w ++
    [TransportOpen (url (hub w)) (headers (hub w)); CheckerStart;
     Log INFO "-- web socket open --";
     TransportSend (encode protocol (handshake_message protocol))] /\
  _ws (hub w') = Some {| ws_url := url (hub w); ws_header := headers (hub w) |} /\
  running (connection_checker (hub w')) = true /\
  last_message (connection_checker (hub w')) = now /\
  handshake_received (hub w') = handshake_received (hub w) /\
  connection_alive (hub w') = connection_alive (hub w) /\
  stream_handlers (hub w') = stream_handlers (hub w) /\
  handlers (hub w') = handlers (hub w).
Proof.
  unfold run. cbn [fold_left exec].
  set (w1 := snd (start w)).
  assert (Hw1 : w1 =
    add_trace [TransportOpen (url (hub w)) (headers (hub w)); CheckerStart]
      (with_hub (fun h => set_connection_checker
                   (set_running true (connection_checker h))
                   (set_ws (Some {| ws_url := url (hub w);
                                    ws_header := headers (hub w) |}) h)) w)).
  { unfold w1, start, bind, self, update, emit, add_trace, with_hub; simpl.
    by rewrite <- app_assoc. }
  unfold on_open, bind, emit.
  rewrite (send_success protocol _ now _
             {| ws_url := url (hub w); ws_header := headers (hub w) |})
    by (by rewrite Hw1).
  rewrite Hw1. simpl. by rewrite <- !app_assoc.
Qed.

Lemma exec_keeps_open (protocol : Protocol) (o : op) (w : World) :
  exists es, trace (exec protocol o w) = trace w ++ es /\ Forall keeps_open es.
Proof.
  revert w. destruct o; unfold exec;
    match goal with
    | |- forall w, exists es, trace (snd (?m w)) = _ /\ _ =>
        change (trace_frame keeps_open m)
    end;
    unfold_methods;
    unfold closed_effect, close_effect, warn_unhandled_event,
      warn_unhandled_stream, none_attribute_error;
    trace_frame_auto.
Qed.

(** [stop] on a hub whose alive flag is set calls [close] on the hub
    object itself, which fails before the checker is stopped: the call
    raises [AttributeError] and changes nothing.  On a hub that is not
    alive [stop] stops the checker and does nothing else.  In neither
    case, and in no other operation, is the socket that [start] opened
    closed. *)
Theorem stop_never_closes (protocol : Protocol) (w : World) :
  (connection_alive (hub w) = true ->
   stop w =
   (Raise (AttributeError "'BaseHubConnection' object has no attribute 'sock'"),
    w)) /\
  (connection_alive (hub w) = false ->
   stop w =
   (Ok tt,
    add_trace [CheckerStop]
      (with_hub (fun h => set_connection_checker
                   (set_running false (connection_checker h)) h) w))) /\
  (forall ops,
     exists es, trace (run protocol ops w) = trace w ++ es /\
                Forall keeps_open es).
Proof.
  split; [|split].
  - intros Ha. unfold stop, WebSocketApp_close, bind, self, raise.
    simpl. by rewrite Ha.
  - intros Ha. unfold stop, bind, self, update, emit. simpl. by rewrite Ha.
  - intros ops. revert w. induction ops as [|o ops IH]; intros w.
    + exists []. by rewrite app_nil_r.
    + simpl. destruct (exec_keeps_open protocol o w) as (es1 & E1 & H1).
      destruct (IH (exec protocol o w)) as (es2 & E2 & H2).
      exists (es1 ++ es2). split; [|by apply Forall_app].
      fold (run protocol ops (exec protocol o w)).
      by rewrite E2, E1, <- app_assoc.
Qed.

Lemma stop_never_closes_witness :
  run completion_protocol [Stop; Stop] alive_world = alive_world.
Proof.
  unfold run. cbn [fold_left exec].
  rewrite !(proj1 (stop_never_closes completion_protocol alive_world) eq_refl).
  reflexivity.
Defined.

(** *** Invocation ids stay distinct *)

Lemma steady_tracked_ids (w w' : World) :
  steady w w' -> tracked_ids w' `sublist_of` tracked_ids w.
Proof.
  intros (_ & Hid & Hsub). unfold tracked_ids.
  rewrite (list_fmap_ext _ (fun r => invocation_id (deref w r))
             (stream_handlers (hub w'))) by done.
  by apply fmap_sublist.
Qed.

Lemma track_tracked_ids (ev uid : string) (w : World) :
  tracker_wf w -> tracked_ids (track ev uid w) = tracked_ids w ++ [uid].
Proof.
  intros Hwf. unfold tracked_ids. simpl. rewrite fmap_app. simpl.
  rewrite deref_track_new. simpl. f_equal.
  apply list_fmap_ext. intros i r Hr. rewrite deref_track_old; [done|].
  apply list_elem_of_lookup_2 in Hr. eapply Forall_forall in Hwf; done.
Qed.

Lemma same_tracker_tracked_ids (w w' : World) :
  same_tracker w w' -> tracked_ids w' = tracked_ids w.
Proof.
  intros [Hh Hs]. unfold tracked_ids, deref. by rewrite Hh, Hs.
Qed.

Lemma exec_tracked_ids (protocol : Protocol) (o : op) (w : World) :
  tracker_wf w ->
  match o with
  | Stream ev _ uid _ _ =>
      tracked_ids (exec protocol o w) = tracked_ids w ++ [uid]
  | _ => tracked_ids (exec protocol o w) `sublist_of` tracked_ids w
  end.
Proof.
  intros Hwf.
  destruct o;
    try (apply steady_tracked_ids, exec_steady; intros; discriminate).
  simpl. rewrite stream_unfold; simpl.
  rewrite (same_tracker_tracked_ids (track ev uid w)).
  - by apply track_tracked_ids.
  - apply (frame_send same_tracker).
Qed.

Lemma stream_ids_cons (o : op) (ops : list op) :
  stream_ids (o :: ops) =
  match o with
  | Stream _ _ uid _ _ => uid :: stream_ids ops
  | _ => stream_ids ops
  end.
Proof. by destruct o. Qed.

Lemma tracked_length (id : string) (w : World) :
  NoDup (tracked_ids w) -> (length (tracked id w) <= 1)%nat.
Proof.
  unfold tracked_ids, tracked.
  induction (stream_handlers (hub w)) as [|r l IH]; [simpl; lia|].
  rewrite fmap_cons. intros Hnd. apply NoDup_cons in Hnd as [Hr Hnd].
  rewrite filter_cons. destruct (decide _) as [Heq|]; [|by apply IH].
  assert (filter (fun r0 => invocation_id (deref w r0) = id) l = []) as ->.
  { apply filter_none. apply Forall_forall. intros r' Hr' Heq'.
    apply Hr. rewrite Heq, <- Heq'.
    by apply (list_elem_of_fmap_2 (fun r => invocation_id (deref w r))). }
  simpl. lia.
Qed.

(** As long as [stream] never draws an id twice, nor an id that a tracked
    handler already carries, the tracked handlers carry pairwise distinct
    invocation ids: at most one handler answers to an id. *)
Theorem tracked_ids_distinct (protocol : Protocol) (ops : list op)
    (w : World) :
  tracker_wf w ->
  NoDup (tracked_ids w ++ stream_ids ops) ->
  let w' := run protocol ops w in
  NoDup (tracked_ids w') /\
  forall id, (length (tracked id w') <= 1)%nat.
Proof.
  intros Hwf Hnd.
  assert (H : NoDup (tracked_ids (run protocol ops w))).
  { revert w Hwf Hnd. induction ops as [|o ops IH]; intros w Hwf Hnd.
    - simpl in *. by rewrite app_nil_r in Hnd.
    - simpl. apply IH; [by apply exec_wf|].
      pose proof (exec_tracked_ids protocol o w Hwf) as Hids.
      rewrite stream_ids_cons in Hnd.
      destruct o;
        try (refine (sublist_NoDup _ _ Hnd _);
             apply sublist_app; [exact Hids|reflexivity]).
      cbn beta iota in Hids. rewrite Hids.
      by rewrite <- app_assoc. }
  intros w'. split; [done|]. intros id. by apply tracked_length.
Qed.

Lemma tracked_ids_distinct_witness :
  NoDup (tracked_ids
           (run completion_protocol
              [Stream "Counter" PyNone "uuid-1" 1 None;
               Stream "Counter" PyNone "uuid-2" 2 None]
              policy_world)).
Proof.
  apply (tracked_ids_distinct completion_protocol
           [Stream "Counter" PyNone "uuid-1" 1 None;
            Stream "Counter" PyNone "uuid-2" 2 None] policy_world).
  - constructor.
  - vm_compute. apply NoDup_cons. split; [|apply NoDup_singleton].
    intros Hin. apply list_elem_of_singleton in Hin. discriminate.
Defined.

(** *** After a reconnection *)

Section Reconnected.

Variable r : ReconnectionHandler.
Hypothesis Hrec : reconnecting r = true.
Variable protocol : Protocol.

Lemma keeps_reconnected_preorder : PreOrder (keeps_reconnected r).
Proof.
  split; unfold keeps_reconnected; [by intros h|intros h1 h2 h3; tauto].
Qed.

Lemma send_keeps_reconnected (message : Message) (now : Z) (io : option exn) :
  hub_frame (keeps_reconnected r) (send protocol message now io).
Proof.
  intros w (Hhs & Ha & Hr).
  unfold send, try_except, ws_send, bind, self, raise.
  destruct (_ws (hub w)); [destruct io as [ex|]|]; simpl;
    try (by repeat split);
    try (destruct (is_connection_closed ex); [|by repeat split]);
    cbn [hub]; try rewrite Hr; simpl; try rewrite Hrec; simpl;
    unfold reconnected; by destruct (hub w).
Qed.

Lemma on_message_keeps_reconnected (raw_message : string) (now : Z) :
  hub_frame (keeps_reconnected r) (on_message protocol raw_message now).
Proof.
  intros w (Hhs & Ha & Hr).
  rewrite on_message_after_handshake by done.
  destruct (dispatch_hub_changes (parse_messages protocol raw_message)
              (with_hub (touch now) w)) as (l & b & -> & _ & Hb).
  simpl in *. destruct (hub w); simpl in *. unfold reconnected; simpl.
  repeat split; try done. destruct b; [|done]. by rewrite Hb in Ha.
Qed.

Lemma configure_reconnection_keeps_reconnected (t : string) (k i : Z)
    (a : option Z) :
  hub_frame (keeps_reconnected r) (configure_reconnection t k i a).
Proof.
  intros w H. rewrite configure_reconnection_raises. simpl.
  unfold reconnected in *. by destruct (hub w).
Qed.

Lemma exec_keeps_reconnected (o : op) :
  forall w, keeps_reconnected r (hub w) (hub (exec protocol o w)).
Proof.
  pose proof keeps_reconnected_preorder.
  exec_hub_frame (keeps_reconnected r) o;
    unfold on_open, on_close, on_error, stream, subscribe,
      register_handler, start, stop, getitem;
    repeat first
      [ apply on_message_keeps_reconnected
      | apply send_keeps_reconnected
      | apply configure_reconnection_keeps_reconnected
      | hub_frame_step ltac:(unfold keeps_reconnected, reconnected;
                             field_kept) ].
Qed.

End Reconnected.

(** Once a hub past its handshake has started a reconnection (it is not
    alive and its handler is reconnecting), nothing brings it back: after
    any operations, [stop], [start] and new frames included, it is still
    not alive and its handler still reconnecting, because the handshake of
    the new connection is never evaluated.  So every later failure of a
    write on a closed transport is logged and swallowed, and starts no
    reconnection. *)
Theorem reconnects_at_most_once (protocol : Protocol) (ops : list op)
    (w : World) (r : ReconnectionHandler) :
  reconnecting r = true ->
  reconnected r (hub w) ->
  let w' := run protocol ops w in
  reconnected r (hub w') /\
  forall message now ex app,
    _ws (hub w') = Some app -> is_connection_closed ex = true ->
    send protocol message now (Some ex) w' =
    (Ok tt, add_trace [closed_effect ex] w').
Proof.
  intros Hrec Hw w'.
  assert (Hw' : reconnected r (hub w')).
  { pose proof (keeps_reconnected_preorder r).
    by apply (run_hub_frame (keeps_reconnected r) protocol
                (exec_keeps_reconnected r Hrec protocol) ops w). }
  split; [done|]. intros message now ex app Hws Hex.
  destruct Hw' as (_ & Ha & Hr).
  by apply (send_closed_while_reconnecting protocol message now ex w' app r).
Qed.

Lemma reconnects_at_most_once_witness :
  trace (snd (send completion_protocol PingMessage 9
                (Some (ConnectionResetError "reset"))
                (run completion_protocol after_reconnection reconnected_world)))
  = trace (run completion_protocol after_reconnection reconnected_world)
    ++ [closed_effect (ConnectionResetError "reset")].
Proof.
  destruct (reconnects_at_most_once completion_protocol after_reconnection
              reconnected_world reconnecting_handler eq_refl
              ltac:(by repeat split)) as [_ Hsend].
  erewrite Hsend; [reflexivity|vm_compute; reflexivity|reflexivity].
Defined.

(** ** Which exceptions are raised *)

Section RaiseFrames.

Context (P : exn -> Prop).

Lemma raise_frame_total {A} (m : M A) :
  (forall w, exists a, fst (m w) = Ok a) -> raise_frame P m.
Proof. intros H w ex E. destruct (H w) as [a Ha]. congruence. Qed.

Lemma raise_frame_ret {A} (a : A) : raise_frame P (ret a).
Proof. apply raise_frame_total. by eexists. Qed.

Lemma raise_frame_self : raise_frame P self.
Proof. apply raise_frame_total. by eexists. Qed.

Lemma raise_frame_emit (e : effect) : raise_frame P (emit e).
Proof. apply raise_frame_total. by eexists. Qed.

Lemma raise_frame_update (f : BaseHubConnection -> BaseHubConnection) :
  raise_frame P (update f).
Proof. apply raise_frame_total. by eexists. Qed.

Lemma raise_frame_attr {A} (r : ref) (f : StreamHandler -> A) :
  raise_frame P (attr r f).
Proof. apply raise_frame_total. by eexists. Qed.

Lemma raise_frame_fired (id : string) : raise_frame P (fired_stream_handlers id).
Proof. apply raise_frame_total. by eexists. Qed.

Lemma raise_frame_unregister (id : string) : raise_frame P (unregister id).
Proof. apply raise_frame_total. by eexists. Qed.

Lemma raise_frame_raise {A} (ex : exn) : P ex -> raise_frame P (@raise A ex).
Proof. intros Hex w ex' [= <-]. exact Hex. Qed.

Lemma raise_frame_call (v : pyval) (arg : call_arg) :
  (forall v', call_error (not_callable v') -> P (not_callable v')) ->
  raise_frame P (call v arg).
Proof.
  intros Hp.
  destruct v; first [apply raise_frame_emit | apply raise_frame_raise, Hp];
    eexists; (split; [|reflexivity]); by intros [].
Qed.

Lemma raise_frame_bind {A B} (m : M A) (k : A -> M B) :
  raise_frame P m -> (forall a, raise_frame P (k a)) -> raise_frame P (bind m k).
Proof.
  intros Hm Hk w ex. unfold bind. specialize (Hm w).
  destruct (m w) as [[a|ex'] w1]; simpl in *.
  - apply Hk.
  - intros [= <-]. by apply Hm.
Qed.

Lemma raise_frame_for_each {A} (xs : list A) (body : A -> M unit) :
  (forall x, raise_frame P (body x)) -> raise_frame P (for_each xs body).
Proof.
  intros Hb. induction xs as [|x xs IH]; simpl.
  - apply raise_frame_ret.
  - apply raise_frame_bind; [apply Hb|done].
Qed.

Lemma raise_frame_dispatch (ms : list Message) :
  (forall m, raise_frame P (dispatch_message m)) -> raise_frame P (dispatch ms).
Proof.
  intros Hm. induction ms as [|m ms IH]; simpl.
  - apply raise_frame_ret.
  - apply raise_frame_bind; [apply Hm|]. intros []; [done|apply raise_frame_ret].
Qed.

End RaiseFrames.

Ltac raise_frame_step :=
  match goal with
  | |- forall _, raise_frame _ _ => intros ?
  | |- raise_frame _ (if ?b then _ else _) => destruct b
  | |- raise_frame _ (match ?x with _ => _ end) => destruct x
  | |- raise_frame _ (dispatch_message ?m) =>
      destruct m; unfold dispatch_message
  | |- raise_frame _ _ =>
      first
        [ apply raise_frame_ret | apply raise_frame_self
        | apply raise_frame_emit | apply raise_frame_update
        | apply raise_frame_attr | apply raise_frame_fired
        | apply raise_frame_unregister
        | apply raise_frame_dispatch
        | apply raise_frame_raise; done
        | apply raise_frame_call; by intros ?
        | apply raise_frame_bind
        | apply raise_frame_for_each ]
  end.

Lemma dispatch_raises_type_error (ms : list Message) :
  raise_frame call_error (dispatch ms).
Proof. repeat raise_frame_step. Qed.

Lemma evaluate_handshake_raises (protocol : Protocol) (message : string) :
  raise_frame
    (fun ex => ex = none_attribute_error \/
               exists err, err <> "" /\
                 error (decode_handshake protocol message) = Some err /\
                 ex = ValueError ("Handshake error " +:+ err))
    (evaluate_handshake protocol message).
Proof.
  intros w ex. unfold evaluate_handshake.
  destruct (bool_decide _ || bool_decide _) eqn:E.
  - unfold bind, update, self; simpl.
    destruct (reconnection_handler _); [done|]. intros [= <-]. by left.
  - apply orb_false_elim in E as [E1 E2].
    apply bool_decide_eq_false in E1, E2.
    destruct (error (decode_handshake protocol message)) as [err|]; [|done].
    unfold bind, emit, raise; simpl. intros [= <-]. right. exists err.
    split; [congruence|done].
Qed.

(** [on_message] raises three kinds of exception and no other: the
    [ValueError] of a rejected handshake and the [AttributeError] of the
    missing reconnection handler, both only while the handshake is
    pending, and, once it is received, the [TypeError] of a callback
    that cannot be called.  [send] raises what the transport raised, or
    [AttributeError] on a hub without a socket: it adds no error of its
    own. *)
Theorem raised_exceptions (protocol : Protocol) (now : Z) (w : World)
    (ex : exn) :
  (forall raw_message,
     fst (on_message protocol raw_message now w) = Raise ex ->
     if handshake_received (hub w)
     then call_error ex
     else ex = none_attribute_error \/
          exists err, err <> "" /\
            error (decode_handshake protocol raw_message) = Some err /\
            ex = ValueError ("Handshake error " +:+ err)) /\
  (forall message io,
     fst (send protocol message now io w) = Raise ex ->
     match _ws (hub w) with
     | Some _ => io = Some ex
     | None => ex = AttributeError "'NoneType' object has no attribute 'send'"
     end).
Proof.
  split.
  - intros raw_message. unfold on_message, bind, update, self; simpl.
    destruct (handshake_received (hub w)) eqn:Hhs; simpl.
    + apply dispatch_raises_type_error.
    + apply evaluate_handshake_raises.
  - intros message io.
    unfold send, try_except, ws_send, bind, self, raise.
    destruct (_ws (hub w)); [destruct io as [ex'|]|]; simpl; try done;
      try (by intros [= <-]).
    destruct (is_connection_closed ex'); [|by intros [= <-]].
    cbn [hub]. destruct (reconnection_handler (hub w)) as [r|];
      [|by intros [= <-]].
    simpl. destruct (reconnecting r); done.
Qed.

(** ** [strip] *)

Lemma lstrip_blank (s : string) : blank (lstrip s) = blank s.
Proof.
  induction s as [|c s IH]; [done|]. simpl.
  destruct (is_space c) eqn:E; [done|]. simpl. by rewrite E.
Qed.

Lemma lstrip_nonspace (s : string) (c : ascii) (t : string) :
  lstrip s = String c t -> is_space c = false.
Proof.
  induction s as [|a s IH]; [done|]. simpl.
  destruct (is_space a) eqn:E; [done|]. by intros [= <- <-].
Qed.

Lemma rstrip_empty (s : string) : rstrip s = "" <-> blank s = true.
Proof.
  induction s as [|c s IH]; [done|]. simpl.
  destruct (rstrip s) eqn:E.
  - destruct (is_space c); simpl; [|split; done].
    split; [intros _; by apply IH|done].
  - split; [done|]. intros [_ Hb]%andb_prop. apply IH in Hb. done.
Qed.

Lemma strip_empty (s : string) : strip s = "" <-> blank s = true.
Proof. unfold strip. by rewrite rstrip_empty, lstrip_blank. Qed.

(** ** The builder: [with_url] and [on_disconnect] *)

Lemma with_url_url_test (hub_url : option string) :
  match hub_url with
  | None => true
  | Some u => bool_decide (strip u = "")
  end = true <->
  hub_url = None \/ exists u, hub_url = Some u /\ blank u = true.
Proof.
  destruct hub_url as [u|].
  - rewrite bool_decide_eq_true, strip_empty. split.
    + intros Hb. right. by exists u.
    + by intros [|(u' & [= <-] & Hb)].
  - split; [by left|done].
Qed.

Lemma with_url_outcome (dict_repr : gmap string pyval -> string)
    (hub_url : option string) (opts : Setup.pyobj)
    (b : Setup.HubConnectionBuilder) :
  (Setup.refused hub_url opts ->
   exists msg, Setup.with_url dict_repr hub_url opts b =
               (Raise (HubConnectionError msg), b)) /\
  (~ Setup.refused hub_url opts ->
   Setup.with_url dict_repr hub_url opts b =
   (Ok tt, Setup.configured hub_url opts b)).
Proof.
  unfold Setup.with_url, Setup.refused.
  pose proof (with_url_url_test hub_url) as Hurl.
  destruct (match hub_url with None => true | Some u => _ end) eqn:E1.
  { split; [by eexists|]. intros Hn. destruct Hn.
    destruct (proj1 Hurl eq_refl) as [?|?]; [by left|right; by left]. }
  assert (Hu : ~ (hub_url = None \/ exists u, hub_url = Some u /\ blank u = true)).
  { intros H. by apply Hurl in H. }
  destruct opts as [v|d].
  - destruct v; simpl; try (split; [by eexists|];
      intros Hn; destruct Hn; right; right; left; by eexists).
    split; [|done].
    intros [H|[H|[(v & [= <-] & Hv)|(d & v & H & _)]]];
      try done; destruct Hu; tauto.
  - simpl. destruct (d !! "access_token_factory") as [v|] eqn:Ed; simpl.
    + try rewrite bool_decide_true by (by eexists). simpl.
      destruct (Setup.is_callable v) eqn:Ec; simpl.
      * split; [|done].
        intros [H|[H|[(v' & H & _)|(d' & v' & [= <-] & Hd & Hc)]]];
          try done; try (destruct Hu; tauto).
        rewrite Ed in Hd. injection Hd as <-. congruence.
      * split; [by eexists|]. intros Hn. destruct Hn.
        right; right; right. by exists d, v.
    + try rewrite bool_decide_false by (by intros [? ?]). simpl.
      split; [|done].
      intros [H|[H|[(v' & H & _)|(d' & v' & [= <-] & Hd & _)]]];
        try done; try (destruct Hu; tauto).
      by rewrite Ed in Hd.
Qed.

(** [with_url] refuses exactly a url that is [None] or blank, options
    that are neither [None] nor a dict, and a dict whose
    [access_token_factory] is not callable; it then raises
    [HubConnectionError] and leaves the builder as it was.  Any other url
    is accepted as it is: no scheme or host is looked for. *)
Theorem with_url_validation (dict_repr : gmap string pyval -> string)
    (hub_url : option string) (opts : Setup.pyobj)
    (b : Setup.HubConnectionBuilder) :
  (Setup.refused hub_url opts ->
   exists msg, Setup.with_url dict_repr hub_url opts b =
               (Raise (HubConnectionError msg), b)) /\
  (~ Setup.refused hub_url opts ->
   fst (Setup.with_url dict_repr hub_url opts b) = Ok tt).
Proof.
  destruct (with_url_outcome dict_repr hub_url opts b) as [Hr Ha].
  split; [done|]. intros Hn. by rewrite Ha.
Qed.

Lemma on_hub_unbuilt {A} (name : string) (m : M A)
    (c : Builder.HubConnectionBuilder) :
  Builder._hub c = None ->
  Builder.on_hub name m c = (Raise (unbuilt_error name), c).
Proof. intros Hh. unfold Builder.on_hub. by rewrite Hh. Qed.

(** An accepted [with_url] stores the url as given (not stripped) and
    drops the hub: even on a builder that was built, every method that
    reaches the hub ([on], [stream], [start], [stop], [on_disconnect],
    [send] with a list) then raises [AttributeError] and does nothing,
    until [build] is called again. *)
Theorem with_url_unbuilds (dict_repr : gmap string pyval -> string)
    (protocol : Protocol) (hub_url : option string) (opts : Setup.pyobj)
    (b : Setup.HubConnectionBuilder) :
  ~ Setup.refused hub_url opts ->
  let b' := snd (Setup.with_url dict_repr hub_url opts b) in
  let c := Setup.core b' in
  Builder.hub_url c = hub_url /\
  Builder._hub c = None /\
  Builder.effects c = Builder.effects (Setup.core b) /\
  (forall ev cb,
     Builder.on ev cb c = (Raise (unbuilt_error "register_handler"), c)) /\
  (forall ev params uid now io,
     Builder.stream protocol ev params uid now io c =
     (Raise (unbuilt_error "stream"), c)) /\
  (forall method args uid now io,
     Builder.send protocol method (PyList args) uid now io c =
     (Raise (unbuilt_error "send"), c)) /\
  Setup.start c = (Raise (unbuilt_error "start"), c) /\
  Setup.stop c = (Raise (unbuilt_error "stop"), c) /\
  (forall data,
     Setup.on_disconnect data c =
     (Raise (unbuilt_error "configure_reconnection"), c)).
Proof.
  intros Hn b' c.
  destruct (with_url_outcome dict_repr hub_url opts b) as [_ Ha].
  assert (Hc : c = Setup.core (Setup.configured hub_url opts b)).
  { unfold c, b'. by rewrite Ha. }
  rewrite Hc. repeat split; intros; first [done | by apply on_hub_unbuilt].
Qed.

Lemma with_url_unbuilds_witness :
  Builder.send completion_protocol "SendMessage" (PyList [PyStr "hi"]) "uuid-2"
    1 None
    (Setup.core
       (snd (Setup.with_url (fun _ => "{}") (Some " ws://localhost/chathub ")
               (Setup.Value PyNone)
               {| Setup.core := built_builder;
                  Setup.options := ∅;
                  Setup.has_auth_configured := None |})))
  = (Raise (AttributeError "'NoneType' object has no attribute 'send'"),
     {| Builder.hub_url := Some " ws://localhost/chathub ";
        Builder._hub := None; Builder.store := []; Builder.effects := [] |}).
Proof.
  destruct (with_url_unbuilds (fun _ => "{}") completion_protocol
              (Some " ws://localhost/chathub ") (Setup.Value PyNone)
              {| Setup.core := built_builder; Setup.options := ∅;
                 Setup.has_auth_configured := None |})
    as (_ & _ & _ & _ & _ & Hsend & _).
  - intros [H|[(u & [= <-] & H)|[(v & [= <-] & H)|(d & v & H & _)]]]; try done.
  - rewrite Hsend. reflexivity.
Defined.

Lemma with_url_auth_ok (dict_repr : gmap string pyval -> string)
    (hub_url : option string) (opts : Setup.pyobj)
    (b : Setup.HubConnectionBuilder) :
  Setup.auth_ok b ->
  Setup.auth_ok (snd (Setup.with_url dict_repr hub_url opts b)).
Proof.
  intros Hb. unfold Setup.with_url.
  destruct (match hub_url with None => true | Some u => _ end); [exact Hb|].
  destruct (negb (Setup.is_none opts) && Setup.not_dict opts); [exact Hb|].
  destruct (negb (Setup.is_none opts) && Setup.has_factory opts
            && negb (Setup.factory_callable opts)); [exact Hb|].
  unfold Setup.auth_ok; simpl.
  destruct opts as [v|d]; simpl.
  - destruct v; simpl; try done.
    all: intros [= Hf]; done.
  - intros [= Hf]. apply andb_prop in Hf as [_ Hc].
    destruct (d !! "access_token_factory") as [[]|]; try done.
    by eexists.
Qed.

(** Whatever [with_url] calls a builder has seen, accepted or refused:
    when [has_auth_configured] is true, the options hold a callable
    [access_token_factory]. *)
Theorem auth_configured_has_factory (dict_repr : gmap string pyval -> string)
    (calls : list (option string * Setup.pyobj)) :
  Setup.auth_ok
    (fold_left (fun b c => snd (Setup.with_url dict_repr (fst c) (snd c) b))
               calls Setup.init).
Proof.
  assert (H : forall b, Setup.auth_ok b ->
            Setup.auth_ok
              (fold_left (fun b c => snd (Setup.with_url dict_repr (fst c) (snd c) b))
                         calls b)).
  { induction calls as [|c calls IH]; intros b Hb; [done|].
    simpl. apply IH. by apply with_url_auth_ok. }
  apply H. intros Hf. done.
Qed.

(** [on_disconnect] on a built builder never installs a reconnection
    handler.  It sets the keep-alive interval of the hub (to the value
    under [keep_alive_interval], or 15) and then raises: [NameError] for
    the types [raw] (also the default) and [exponential], whose branches
    name a class the hub's module does not bind, [KeyError] for any other
    type.  Nothing else changes, and nothing is sent. *)
Theorem on_disconnect_raises (data : Setup.DisconnectData)
    (c : Builder.HubConnectionBuilder) (h : BaseHubConnection) :
  Builder._hub c = Some h ->
  let t := default "raw" (Setup.data_type data) in
  let h' := set_connection_checker
              (set_keep_alive_interval
                 (default 15 (Setup.data_keep_alive_interval data))
                 (connection_checker h)) h in
  Setup.on_disconnect data c =
  (Raise (if bool_decide (t = "raw") || bool_decide (t = "exponential")
          then NameError "ReconnectionHandler"
          else KeyError t),
   {| Builder.hub_url := Builder.hub_url c; Builder._hub := Some h';
      Builder.store := Builder.store c;
      Builder.effects := Builder.effects c |}) /\
  reconnection_handler h' = reconnection_handler h.
Proof.
  intros Hh t h'. split; [|by destruct h].
  unfold Setup.on_disconnect, Builder.on_hub. rewrite Hh.
  by rewrite configure_reconnection_raises.
Qed.

Lemma on_disconnect_raises_witness :
  fst (Setup.on_disconnect chat_disconnect_data built_builder)
  = Raise (NameError "ReconnectionHandler").
Proof.
  destruct (on_disconnect_raises chat_disconnect_data built_builder
              (hub policy_world) eq_refl) as [-> _].
  reflexivity.
Defined.

(** ** The chat example *)

(** [input_with_default] returns the default exactly when nothing was
    read or the line read is blank; any other line is returned as it was
    read, with the white space around it.  So with a default that is not
    blank the result is never blank. *)
Theorem input_with_default_blank (input : string -> option string)
    (format : string -> string -> string) (input_text default_value : string) :
  let line := input (format input_text default_value) in
  let result := input_with_default input format input_text default_value in
  (line = None -> result = default_value) /\
  (forall value, line = Some value ->
     result = if blank value then default_value else value) /\
  (blank default_value = false -> blank result = false).
Proof.
  intros line result. unfold result, input_with_default. fold line.
  destruct line as [value|]; [|done].
  split; [done|].
  assert (Hv : (if bool_decide (strip value = "") then default_value else value)
               = if blank value then default_value else value).
  { destruct (blank value) eqn:E.
    - by rewrite bool_decide_true by (by apply strip_empty).
    - rewrite bool_decide_false; [done|]. rewrite strip_empty. congruence. }
  rewrite Hv. split.
  - by intros value' [= <-].
  - intros Hd. by destruct (blank value) eqn:E.
Qed.

Lemma input_with_default_blank_witness :
  input_with_default (fun _ => Some "  ") (fun t _ => t)
    "Enter your username: " "mandrewcito" = "mandrewcito"
  /\ input_with_default (fun _ => Some " ana ") (fun t _ => t)
       "Enter your username: " "mandrewcito" = " ana ".
Proof.
  split.
  - apply (proj1 (proj2 (input_with_default_blank (fun _ => Some "  ")
                           (fun t _ => t) "Enter your username: " "mandrewcito"))
             "  " eq_refl).
  - apply (proj1 (proj2 (input_with_default_blank (fun _ => Some " ana ")
                           (fun t _ => t) "Enter your username: " "mandrewcito"))
             " ana " eq_refl).
Defined.
